(** * Model of the Bato mirror manager and of the Bato service

    Shallow embedding of [services/bato_mirror_manager.py] and of the
    fallback loops of [services/bato_service.py].

    Conventions of the model:
    - Python [str] values are Rocq [string]s of ASCII characters; Unicode
      case mapping and whitespace agree with the ASCII ones on this domain.
    - The values that [json.loads] produces and that the code inspects are
      the type [pyval]; JSON numbers are modelled as integers.
    - A Python [dict] is an association list kept in insertion order, with
      no two equal keys.
    - Uncaught exceptions other than [requests.RequestException] are
      results of their own ([LoadRaised], [WCrash], ...).
    - Logging and the rate limiter's sleeps are not modelled (they only
      delay the calls). *)

From Stdlib Require Import ZArith List Bool Ascii String Lia.
From Stdlib Require Import Numbers.DecimalString Sorting.Permutation QArith Lqa.
Import ListNotations.
Close Scope Q_scope.
Open Scope string_scope.
Set Warnings "-register-all".

(** ** Python values *)

Module Py.

Inductive pyval : Type :=
| PNone
| PBool (b : bool)
| PInt (z : Z)
| PStr (s : string)
| PList (l : list pyval)
| PDict (kvs : list (pyval * pyval)).

(** [bool] is a subclass of [int] in Python: [True == 1]. *)
Definition as_int (v : pyval) : option Z :=
  match v with
  | PBool b => Some (if b then 1%Z else 0%Z)
  | PInt z => Some z
  | _ => None
  end.

(** Equality of hashable values ([==] of Python on them). *)
Fixpoint py_eq (a b : pyval) : bool :=
  match as_int a, as_int b with
  | Some x, Some y => Z.eqb x y
  | Some _, None | None, Some _ => false
  | None, None =>
    match a, b with
    | PNone, PNone => true
    | PStr s, PStr t => String.eqb s t
    | PList l1, PList l2 =>
      (fix eql l1 l2 :=
         match l1, l2 with
         | [], [] => true
         | x :: r1, y :: r2 => py_eq x y && eql r1 r2
         | _, _ => false
         end) l1 l2
    | _, _ => false
    end
  end.

Definition hashable (v : pyval) : bool :=
  match v with PList _ | PDict _ => false | _ => true end.

(** Truthiness, as used by [if not x]. *)
Definition truthy (v : pyval) : bool :=
  match v with
  | PNone => false
  | PBool b => b
  | PInt z => negb (Z.eqb z 0)
  | PStr s => negb (String.eqb s "")
  | PList l => match l with [] => false | _ => true end
  | PDict kvs => match kvs with [] => false | _ => true end
  end.

(** [d[k] = v] on a dict: an existing equal key keeps its position. *)
Fixpoint dict_set (kvs : list (pyval * pyval)) (k v : pyval) : list (pyval * pyval) :=
  match kvs with
  | [] => [(k, v)]
  | (k', v') :: r => if py_eq k' k then (k', v) :: r else (k', v') :: dict_set r k v
  end.

Fixpoint dict_lookup (kvs : list (pyval * pyval)) (k : pyval) : option pyval :=
  match kvs with
  | [] => None
  | (k', v) :: r => if py_eq k' k then Some v else dict_lookup r k
  end.

(** [d.get(k, default)]; [None] is the [AttributeError] of a non-dict. *)
Definition get (d : pyval) (k : string) (default : pyval) : option pyval :=
  match d with
  | PDict kvs => Some (match dict_lookup kvs (PStr k) with Some v => v | None => default end)
  | _ => None
  end.

Definition str_list (s : string) : list pyval :=
  map (fun c => PStr (String c EmptyString)) (list_ascii_of_string s).

(** Iteration [for x in v]; [None] is the [TypeError] of a non-iterable. *)
Definition py_iter (v : pyval) : option (list pyval) :=
  match v with
  | PList l => Some l
  | PDict kvs => Some (map fst kvs)
  | PStr s => Some (str_list s)
  | _ => None
  end.

(** [dict(v)]; [None] is the [TypeError] / [ValueError] it raises. *)
Definition pair_of (x : pyval) : option (pyval * pyval) :=
  match py_iter x with
  | Some [a; b] => if hashable a then Some (a, b) else None
  | _ => None
  end.

Fixpoint dict_of_pairs (acc : list (pyval * pyval)) (l : list pyval) : option (list (pyval * pyval)) :=
  match l with
  | [] => Some acc
  | x :: r => match pair_of x with
              | Some (a, b) => dict_of_pairs (dict_set acc a b) r
              | None => None
              end
  end.

Definition py_dict (v : pyval) : option (list (pyval * pyval)) :=
  match v with
  | PDict kvs => Some kvs
  | PList l => dict_of_pairs [] l
  | PStr s => dict_of_pairs [] (str_list s)
  | _ => None
  end.

(** [x in v]. *)
Fixpoint contains (s t : string) : bool :=
  String.prefix t s ||
  match s with
  | EmptyString => false
  | String _ r => contains r t
  end.

Definition py_in (x : string) (v : pyval) : option bool :=
  match v with
  | PDict kvs => Some (existsb (fun kv => py_eq (fst kv) (PStr x)) kvs)
  | PList l => Some (existsb (fun y => py_eq y (PStr x)) l)
  | PStr s => Some (contains s x)
  | _ => None
  end.

(** ** [str()] and [repr()] *)

Definition Z_to_string (z : Z) : string := NilEmpty.string_of_int (Z.to_int z).

Definition hexdigit (n : nat) : ascii :=
  if Nat.ltb n 10 then ascii_of_nat (48 + n) else ascii_of_nat (87 + n).

Definition char_repr (q c : ascii) : string :=
  let n := nat_of_ascii c in
  if Ascii.eqb c "\"%char then "\\"
  else if Ascii.eqb c q then String "\"%char (String q EmptyString)
  else if Nat.eqb n 9 then "\t"
  else if Nat.eqb n 10 then "\n"
  else if Nat.eqb n 13 then "\r"
  else if Nat.ltb n 32 || Nat.eqb n 127 then
    String "\"%char (String "x"%char (String (hexdigit (n / 16)) (String (hexdigit (n mod 16)) EmptyString)))
  else String c EmptyString.

(** The double quote character. *)
Definition dq : ascii := ascii_of_nat 34.

Definition str_repr (s : string) : string :=
  let q : ascii := if contains s "'" && negb (contains s (String dq EmptyString)) then dq else "'"%char in
  String q (String.concat "" (map (char_repr q) (list_ascii_of_string s)) ++ String q EmptyString).

Fixpoint py_repr (v : pyval) : string :=
  match v with
  | PNone => "None"
  | PBool b => if b then "True" else "False"
  | PInt z => Z_to_string z
  | PStr s => str_repr s
  | PList l => "[" ++ String.concat ", " (map py_repr l) ++ "]"
  | PDict kvs =>
    "{" ++ String.concat ", " (map (fun kv => py_repr (fst kv) ++ ": " ++ py_repr (snd kv)) kvs) ++ "}"
  end.

Definition py_str (v : pyval) : string :=
  match v with PStr s => s | _ => py_repr v end.

End Py.

Import Py.

(** ** String methods *)

Module Str.

(** Characters [str.strip()] removes (the ASCII ones [str.isspace] accepts). *)
Definition is_space (c : ascii) : bool :=
  let n := nat_of_ascii c in
  (Nat.leb 9 n && Nat.leb n 13) || (Nat.leb 28 n && Nat.leb n 32).

Fixpoint lstrip_by (p : ascii -> bool) (s : string) : string :=
  match s with
  | EmptyString => EmptyString
  | String c r => if p c then lstrip_by p r else s
  end.

Definition rev_string (s : string) : string :=
  string_of_list_ascii (rev (list_ascii_of_string s)).

Definition rstrip_by (p : ascii -> bool) (s : string) : string :=
  rev_string (lstrip_by p (rev_string s)).

Definition strip (s : string) : string := rstrip_by is_space (lstrip_by is_space s).

(** [s.rstrip("/")]. *)
Definition rstrip_slash (s : string) : string := rstrip_by (fun c => Ascii.eqb c "/") s.

Definition lower_char (c : ascii) : ascii :=
  let n := nat_of_ascii c in
  if Nat.leb 65 n && Nat.leb n 90 then ascii_of_nat (n + 32) else c.

(** [s.lower()]. *)
Definition lower (s : string) : string :=
  string_of_list_ascii (map lower_char (list_ascii_of_string s)).

(** [s.find(c)] as an option. *)
Fixpoint find (c : ascii) (s : string) : option nat :=
  match s with
  | EmptyString => None
  | String d r => if Ascii.eqb c d then Some 0 else option_map S (find c r)
  end.

Definition has (c : ascii) (s : string) : bool :=
  match find c s with Some _ => true | None => false end.

(** [s.split(c, 1)] when [c] occurs in [s]. *)
Definition split1 (c : ascii) (s : string) : string * string :=
  match find c s with
  | Some i => (substring 0 i s, substring (S i) (String.length s) s)
  | None => (s, EmptyString)
  end.

(** [s.split(c)]. *)
Fixpoint split_all_aux (c : ascii) (s : string) (cur : string) : list string :=
  match s with
  | EmptyString => [cur]
  | String d r =>
    if Ascii.eqb c d then cur :: split_all_aux c r EmptyString
    else split_all_aux c r (cur ++ String d EmptyString)
  end.

Definition split_all (c : ascii) (s : string) : list string := split_all_aux c s EmptyString.

End Str.

(** ** [json.loads(json.dumps(v))] *)

Module Json.

(** Dict keys [json.dumps] accepts, as the strings it writes. *)
Definition json_key (k : pyval) : option string :=
  match k with
  | PStr s => Some s
  | PInt z => Some (Z_to_string z)
  | PBool b => Some (if b then "true" else "false")
  | PNone => Some "null"
  | _ => None
  end.

Fixpoint build_obj (acc : list (pyval * pyval)) (kvs : list (string * pyval)) : list (pyval * pyval) :=
  match kvs with
  | [] => acc
  | (k, v) :: r => build_obj (dict_set acc (PStr k) v) r
  end.

(** [None]: [json.dumps] raises [TypeError]. A repeated key of the written
    text keeps its first position and its last value when read back. *)
Fixpoint roundtrip (v : pyval) : option pyval :=
  match v with
  | PNone | PBool _ | PInt _ | PStr _ => Some v
  | PList l =>
    option_map PList
      ((fix go l :=
          match l with
          | [] => Some []
          | x :: r => match roundtrip x, go r with
                      | Some y, Some ys => Some (y :: ys)
                      | _, _ => None
                      end
          end) l)
  | PDict kvs =>
    option_map (fun kvs' => PDict (build_obj [] kvs'))
      ((fix go kvs :=
          match kvs with
          | [] => Some []
          | (k, x) :: r => match json_key k, roundtrip x, go r with
                           | Some k', Some y, Some ys => Some ((k', y) :: ys)
                           | _, _, _ => None
                           end
          end) kvs)
  end.

End Json.

(** ** Mirror configuration ([bato_mirror_manager.py]) *)

Module Mirror.

Record MirrorConfig : Type := {
  base_url : string;
  search_path : string;
  search_params : list (pyval * pyval)
}.

Definition comic_params : list (pyval * pyval) := [(PStr "type", PStr "comic")].

Definition mk_default (b : string) : MirrorConfig :=
  {| base_url := b; search_path := "/v4x-search"; search_params := comic_params |}.

Definition DEFAULT_MIRRORS : list MirrorConfig :=
  [mk_default "https://bato.to"; mk_default "https://bato.si"; mk_default "https://bato.ing"].

(** The attributes [_mirrors] and [_current_index] of [BatoMirrorManager]. *)
Record Manager : Type := {
  mirrors : list MirrorConfig;
  current_index : Z
}.

Definition set_index (m : Manager) (i : Z) : Manager :=
  {| mirrors := mirrors m; current_index := i |}.

(** [l[i]]; [None] is the [IndexError]. *)
Definition py_index {A} (l : list A) (i : Z) : option A :=
  let n := Z.of_nat (List.length l) in
  if (0 <=? i)%Z && (i <? n)%Z then nth_error l (Z.to_nat i)
  else if (- n <=? i)%Z && (i <? 0)%Z then nth_error l (Z.to_nat (n + i))
  else None.

(** [current_mirror]. *)
Definition current_mirror (m : Manager) : option MirrorConfig :=
  match mirrors m with
  | [] => Some (mk_default "https://bato.to")
  | l => py_index l (current_index m)
  end.

(** [current_base_url]. *)
Definition current_base_url (m : Manager) : option string :=
  option_map base_url (current_mirror m).

(** [next_mirror]; a transition also saves the configuration. *)
Definition next_mirror (m : Manager) : Manager * option MirrorConfig :=
  let n := Z.of_nat (List.length (mirrors m)) in
  if (n <=? 1)%Z then (m, None)
  else
    let next_index := ((current_index m + 1) mod n)%Z in
    if (next_index =? 0)%Z then (m, None)
    else (set_index m next_index, py_index (mirrors m) next_index).

(** [reset_to_primary]. *)
Definition reset_to_primary (m : Manager) : Manager :=
  if negb (current_index m =? 0)%Z then set_index m 0 else m.

(** [reset_to_defaults]. Python's [list(DEFAULT_MIRRORS)] is a new list of
    the same dicts, which a later [add_mirror_from_url] updates in place
    ([search_path], [search_params]); the model has no sharing, so each
    reset here gives the defaults as written. *)
Definition reset_to_defaults (m : Manager) : Manager :=
  {| mirrors := DEFAULT_MIRRORS; current_index := 0 |}.

(** [get_search_url(word, page)]: the parameters of the current mirror, then
    [word] and [page] set with [params[k] = v]; [None] is the [IndexError]
    of [current_mirror]. The pairs are written [f"{k}={v}"], unescaped. *)
Definition get_search_url (m : Manager) (word : string) (page : Z) : option string :=
  match current_mirror m with
  | None => None
  | Some mirror =>
    let params := dict_set (dict_set (search_params mirror) (PStr "word") (PStr word))
                           (PStr "page") (PStr (Z_to_string page)) in
    let query := String.concat "&" (map (fun kv => py_str (fst kv) ++ "=" ++ py_str (snd kv)) params) in
    Some (base_url mirror ++ search_path mirror ++ "?" ++ query)
  end.

(** [format_mirror_display(index)]. *)
Definition format_mirror_display (m : Manager) (index : Z) : string :=
  let l := mirrors m in
  if negb ((0 <=? index)%Z && (index <? Z.of_nat (List.length l))%Z) then ""
  else
    let mirror := nth (Z.to_nat index) l (mk_default "https://bato.to") in
    let prefix := if (index =? current_index m)%Z then "* " else "  " in
    prefix ++ base_url mirror ++ " [" ++ search_path mirror ++ "]".

(** [list.pop(i)] and [list.insert(i, x)] for indices in range. *)
Definition pop_at {A} (i : nat) (l : list A) : list A := firstn i l ++ skipn (S i) l.
Definition insert_at {A} (i : nat) (x : A) (l : list A) : list A := firstn i l ++ x :: skipn i l.

(** [remove_mirror]. *)
Definition remove_mirror (m : Manager) (index : Z) : Manager * (bool * string) :=
  let l := mirrors m in
  let n := Z.of_nat (List.length l) in
  if negb ((0 <=? index)%Z && (index <? n)%Z) then (m, (false, "Invalid mirror index"))
  else if (n <=? 1)%Z then (m, (false, "Cannot remove the last mirror"))
  else
    let removed := nth (Z.to_nat index) l (mk_default "https://bato.to") in
    let l' := pop_at (Z.to_nat index) l in
    let n' := Z.of_nat (List.length l') in
    let i := current_index m in
    let i' := if (n' <=? i)%Z then (n' - 1)%Z
              else if (index <? i)%Z then (i - 1)%Z
              else i in
    ({| mirrors := l'; current_index := i' |},
     (true, "Removed mirror: " ++ base_url removed)).

(** [move_mirror]. *)
Definition move_mirror (m : Manager) (from_index to_index : Z) : Manager * bool :=
  let l := mirrors m in
  let n := Z.of_nat (List.length l) in
  if negb ((0 <=? from_index)%Z && (from_index <? n)%Z) then (m, false)
  else if negb ((0 <=? to_index)%Z && (to_index <? n)%Z) then (m, false)
  else if (from_index =? to_index)%Z then (m, true)
  else
    let x := nth (Z.to_nat from_index) l (mk_default "https://bato.to") in
    ({| mirrors := insert_at (Z.to_nat to_index) x (pop_at (Z.to_nat from_index) l);
        current_index := current_index m |}, true).

(** ** Persistence: [_save_config] and [_load_config] *)

Definition mirror_to_py (c : MirrorConfig) : pyval :=
  PDict [(PStr "base_url", PStr (base_url c));
         (PStr "search_path", PStr (search_path c));
         (PStr "search_params", PDict (search_params c))].

Definition save_payload (m : Manager) : pyval :=
  PDict [(PStr "mirrors", PList (map mirror_to_py (mirrors m)));
         (PStr "current_index", PInt (current_index m))].

(** The value a later [json.loads] reads from the file [_save_config]
    writes; [None] when [json.dumps] raises. *)
Definition save_config (m : Manager) : option pyval := Json.roundtrip (save_payload m).

(** The configuration file as [_load_config] finds it. [FUnreadable] is a
    file whose reading raises [json.JSONDecodeError] or [OSError]. *)
Inductive config_file : Type :=
| FMissing
| FUnreadable
| FJson (data : pyval).

Inductive load_result : Type :=
| Loaded (m : Manager)
| LoadRaised.

(** One entry of the ["mirrors"] list: [Some None] skips it, [None] is an
    exception raised by [dict(...)]. *)
Definition load_entry (e : pyval) : option (option MirrorConfig) :=
  match e with
  | PDict kvs =>
    if existsb (fun kv => py_eq (fst kv) (PStr "base_url")) kvs then
      match get e "base_url" (PStr ""), get e "search_path" (PStr "/v4x-search"),
            get e "search_params" (PDict []) with
      | Some b, Some p, Some sp =>
        match py_dict sp with
        | Some d => Some (Some {| base_url := Str.rstrip_slash (py_str b);
                                  search_path := py_str p;
                                  search_params := d |})
        | None => None
        end
      | _, _, _ => None
      end
    else Some None
  | PStr s => Some (Some {| base_url := Str.rstrip_slash s;
                            search_path := "/v4x-search";
                            search_params := comic_params |})
  | _ => Some None
  end.

Fixpoint load_entries (l : list pyval) : option (list MirrorConfig) :=
  match l with
  | [] => Some []
  | e :: r => match load_entry e, load_entries r with
              | Some (Some c), Some cs => Some (c :: cs)
              | Some None, Some cs => Some cs
              | _, _ => None
              end
  end.

(** [__init__] sets [_current_index = 0], then calls [_load_config].
    JSON numbers are [PInt] here: a file whose [current_index] is a float
    ([1.5], [1.0], [NaN]) is outside the model; Python keeps such a value,
    since [min(1.5, 2) = 1.5] raises nothing. *)
Definition load_config (f : config_file) : load_result :=
  match f with
  | FMissing | FUnreadable => Loaded {| mirrors := DEFAULT_MIRRORS; current_index := 0 |}
  | FJson data =>
    match get data "mirrors" (PList []) with
    | None => LoadRaised
    | Some ms =>
      let loaded :=
        match ms with
        | PList ((_ :: _) as l) =>
          match load_entries l with
          | Some [] => Some DEFAULT_MIRRORS
          | r => r
          end
        | _ => Some DEFAULT_MIRRORS
        end in
      match loaded with
      | None => LoadRaised
      | Some ls =>
        let bound := match ls with [] => 0%Z | _ => (Z.of_nat (List.length ls) - 1)%Z end in
        match get data "current_index" (PInt 0) with
        | Some ci =>
          match as_int ci with
          | Some z => Loaded {| mirrors := ls; current_index := Z.min z bound |}
          | None => LoadRaised
          end
        | None => LoadRaised
        end
      end
    end
  end.

End Mirror.

(** ** [urllib.parse] as [parse_search_url] uses it *)

Module Url.

Definition is_alpha (c : ascii) : bool :=
  let n := nat_of_ascii c in (Nat.leb 65 n && Nat.leb n 90) || (Nat.leb 97 n && Nat.leb n 122).

Definition is_digit (c : ascii) : bool :=
  let n := nat_of_ascii c in Nat.leb 48 n && Nat.leb n 57.

Definition is_scheme_char (c : ascii) : bool :=
  is_alpha c || is_digit c || Ascii.eqb c "+" || Ascii.eqb c "-" || Ascii.eqb c ".".

(** [_UNSAFE_URL_BYTES_TO_REMOVE]: tab, carriage return, line feed. *)
Definition is_unsafe (c : ascii) : bool :=
  let n := nat_of_ascii c in Nat.eqb n 9 || Nat.eqb n 10 || Nat.eqb n 13.

Definition remove_unsafe (s : string) : string :=
  string_of_list_ascii (filter (fun c => negb (is_unsafe c)) (list_ascii_of_string s)).

Definition min_opt (a b : option nat) : option nat :=
  match a, b with
  | Some x, Some y => Some (Nat.min x y)
  | Some x, None | None, Some x => Some x
  | None, None => None
  end.

(** [_splitnetloc(url, 2)]. *)
Definition splitnetloc (rest : string) : string * string :=
  let body := substring 2 (String.length rest) rest in
  match min_opt (Str.find "/" body) (min_opt (Str.find "?" body) (Str.find "#" body)) with
  | Some d => (substring 0 d body, substring d (String.length body) body)
  | None => (body, EmptyString)
  end.

Record split_result : Type := {
  scheme : string; netloc : string; path : string; query : string; fragment : string
}.

(** [urlsplit(url)]; [None] is the [ValueError] of unbalanced brackets.
    The validation of a bracketed IPv6 host is not modelled. *)
Definition urlsplit (url0 : string) : option split_result :=
  let url := remove_unsafe (Str.lstrip_by (fun c => Nat.leb (nat_of_ascii c) 32) url0) in
  let '(sch, rest) :=
    match Str.find ":" url with
    | Some (S _ as i) =>
      let pre := substring 0 i url in
      match url with
      | String c0 _ =>
        if is_alpha c0 && forallb is_scheme_char (list_ascii_of_string pre)
        then (Str.lower pre, substring (S i) (String.length url) url)
        else (EmptyString, url)
      | EmptyString => (EmptyString, url)
      end
    | _ => (EmptyString, url)
    end in
  let '(net, rest) := if String.prefix "//" rest then splitnetloc rest else (EmptyString, rest) in
  if (Str.has "[" net && negb (Str.has "]" net)) || (Str.has "]" net && negb (Str.has "[" net))
  then None
  else
    let '(rest, frag) := if Str.has "#" rest then Str.split1 "#" rest else (rest, EmptyString) in
    let '(p, q) := if Str.has "?" rest then Str.split1 "?" rest else (rest, EmptyString) in
    Some {| scheme := sch; netloc := net; path := p; query := q; fragment := frag |}.

Definition uses_params : list string :=
  [""; "ftp"; "hdl"; "prospero"; "http"; "imap"; "https"; "shttp"; "rtsp"; "rtspu";
   "sip"; "sips"; "mms"; "sftp"; "tel"].

Fixpoint rfind_aux (c : ascii) (s : string) (i : nat) (acc : option nat) : option nat :=
  match s with
  | EmptyString => acc
  | String d r => rfind_aux c r (S i) (if Ascii.eqb c d then Some i else acc)
  end.

Definition rfind (c : ascii) (s : string) : option nat := rfind_aux c s 0 None.

(** [_splitparams(url)], called when [";"] occurs in [url]. *)
Definition splitparams (url : string) : string * string :=
  let i :=
    match rfind "/" url with
    | Some j => option_map (fun k => j + k) (Str.find ";" (substring j (String.length url) url))
    | None => Str.find ";" url
    end in
  match i with
  | Some i => (substring 0 i url, substring (S i) (String.length url) url)
  | None => (url, EmptyString)
  end.

(** [urlparse(url)]: [urlsplit], then the [;params] of the last segment. *)
Definition urlparse (url : string) : option (split_result * string) :=
  match urlsplit url with
  | None => None
  | Some r =>
    if existsb (String.eqb (scheme r)) uses_params && Str.has ";" (path r) then
      let '(p, params) := splitparams (path r) in
      Some ({| scheme := scheme r; netloc := netloc r; path := p;
               query := query r; fragment := fragment r |}, params)
    else Some (r, EmptyString)
  end.

(** [unquote]: [%XY] with two hex digits is the byte [XY], any other
    [%] stays. Bytes above 127 stand for their UTF-8 decoding. *)
Definition hex_val (c : ascii) : option nat :=
  let n := nat_of_ascii c in
  if is_digit c then Some (n - 48)
  else if Nat.leb 97 n && Nat.leb n 102 then Some (n - 87)
  else if Nat.leb 65 n && Nat.leb n 70 then Some (n - 55)
  else None.

Fixpoint unquote (s : string) : string :=
  match s with
  | EmptyString => EmptyString
  | String "%" (String a (String b r) as t) =>
    match hex_val a, hex_val b with
    | Some x, Some y => String (ascii_of_nat (16 * x + y)) (unquote r)
    | _, _ => String "%" (unquote t)
    end
  | String c r => String c (unquote r)
  end.

Definition plus_to_space (s : string) : string :=
  string_of_list_ascii (map (fun c => if Ascii.eqb c "+" then " "%char else c) (list_ascii_of_string s)).

(** [parse_qsl(qs)] with [keep_blank_values=False], separator ["&"]. *)
Definition parse_qsl (qs : string) : list (string * string) :=
  flat_map (fun nv =>
    if String.eqb nv "" then []
    else if negb (Str.has "=" nv) then []
    else
      let '(n, v) := Str.split1 "=" nv in
      if String.eqb v "" then []
      else [(unquote (plus_to_space n), unquote (plus_to_space v))])
    (Str.split_all "&" qs).

Fixpoint qs_add (acc : list (string * list string)) (k v : string) : list (string * list string) :=
  match acc with
  | [] => [(k, [v])]
  | (k', vs) :: r => if String.eqb k' k then (k', app vs [v]) :: r else (k', vs) :: qs_add r k v
  end.

(** [parse_qs(qs)]: each name with the list of its values, names in the
    order of their first occurrence. *)
Definition parse_qs (qs : string) : list (string * list string) :=
  fold_left (fun acc kv => qs_add acc (fst kv) (snd kv)) (parse_qsl qs) [].

End Url.

Module Parse.
Import Mirror.

Definition excluded_params : list string := ["word"; "page"; "q"; "query"; "search"; "keyword"].

Definition keep_param (key : string) (values : list string) : bool :=
  negb (existsb (String.eqb (Str.lower key)) excluded_params) &&
  match values with [] => false | _ => true end.

Fixpoint collect_params (acc : list (pyval * pyval)) (qp : list (string * list string)) : list (pyval * pyval) :=
  match qp with
  | [] => acc
  | (key, values) :: r =>
    collect_params
      (if keep_param key values then dict_set acc (PStr key) (PStr (hd "" values)) else acc) r
  end.

(** [parse_search_url]. *)
Definition parse_search_url (url0 : string) : option MirrorConfig :=
  let url := Str.strip url0 in
  if String.eqb url "" then None
  else
    let url := if String.prefix "http://" url || String.prefix "https://" url
               then url else "https://" ++ url in
    match Url.urlparse url with
    | None => None
    | Some (parsed, _) =>
      if String.eqb (Url.netloc parsed) "" then None
      else
        Some {| base_url := Url.scheme parsed ++ "://" ++ Url.netloc parsed;
                search_path := if String.eqb (Url.path parsed) "" then "/" else Url.path parsed;
                search_params := collect_params [] (Url.parse_qs (Url.query parsed)) |}
    end.

(** The loop of [add_mirror_from_url] over the existing mirrors: the first
    one with the same [base_url] gets the new search path and parameters. *)
Fixpoint update_existing (c : MirrorConfig) (l : list MirrorConfig) : option (list MirrorConfig) :=
  match l with
  | [] => None
  | e :: r =>
    if String.eqb (base_url e) (base_url c) then
      Some ({| base_url := base_url e; search_path := search_path c;
               search_params := search_params c |} :: r)
    else option_map (cons e) (update_existing c r)
  end.

(** [add_mirror_from_url]. *)
Definition add_mirror_from_url (m : Manager) (url : string) : Manager * (bool * string) :=
  match parse_search_url url with
  | None => (m, (false, "Invalid URL format. Please paste a search URL from your browser."))
  | Some c =>
    match update_existing c (mirrors m) with
    | Some l =>
      ({| mirrors := l; current_index := current_index m |},
       (true, "Updated " ++ base_url c ++ " search path to " ++ search_path c))
    | None =>
      ({| mirrors := app (mirrors m) [c]; current_index := current_index m |},
       (true, "Added mirror: " ++ base_url c ++ " (path: " ++ search_path c ++ ")"))
    end
  end.

End Parse.

(** ** The fallback loop of [bato_service.py]

    [_request_with_fallback], [_search_with_fallback] and
    [_get_series_info_graphql] share one loop; it is [fb_run] below, given
    the work a loop does against one mirror. The network is a state [Net]
    that every request reads and updates, so the responses may depend on
    everything that was sent before. *)

Module Fallback.
Import Mirror.

(** One attempt against a mirror: a result, a [RequestException] (its
    message), or another exception, which no loop catches. *)
Inductive outcome (A : Type) : Type :=
| WOk (a : A)
| WFail (e : string)
| WCrash.
Arguments WOk {A} a.
Arguments WFail {A} e.
Arguments WCrash {A}.

(** What the loop returns or raises. [FbAllFailed] is the final
    [RequestException("All mirrors failed ...")]. *)
Inductive fb_result (A : Type) : Type :=
| FbOk (a : A) (base : string)
| FbRaise (e : string)
| FbAllFailed
| FbCrash.
Arguments FbOk {A} a base.
Arguments FbRaise {A} e.
Arguments FbAllFailed {A}.
Arguments FbCrash {A}.

Section Loop.
Context {Net A : Type}.
Variable work : string -> Net -> Net * outcome A.

(** The code after the loop: reset to the primary mirror, then raise. *)
Definition exhausted (m : Manager) (n : Net) (tried : list string) (last : option string)
  : Manager * Net * list string * fb_result A :=
  (reset_to_primary m, n, tried,
   match last with Some e => FbRaise e | None => FbAllFailed end).

(** The [while True] loop; [tried] is [tried_mirrors], [last] is
    [last_error]. Each pass that goes on moves [current_index] up, so
    [S (length mirrors)] passes are enough (see [fb_loop_fuel] below). *)
Fixpoint fb_loop (fuel : nat) (tried : list string) (last : option string)
    (m : Manager) (n : Net) : Manager * Net * list string * fb_result A :=
  match fuel with
  | O => exhausted m n tried last
  | S f =>
    match current_base_url m with
    | None => (m, n, tried, FbCrash)
    | Some cur =>
      if existsb (String.eqb cur) tried then exhausted m n tried last
      else
        let tried' := app tried [cur] in
        let '(n', r) := work cur n in
        match r with
        | WOk a => (m, n', tried', FbOk a cur)
        | WCrash => (m, n', tried', FbCrash)
        | WFail e =>
          let '(m', nx) := next_mirror m in
          match nx with
          | None => exhausted m' n' tried' (Some e)
          | Some _ => fb_loop f tried' (Some e) m' n'
          end
        end
    end
  end.

(** The whole helper: [start_mirror = current_base_url] is read first. *)
Definition fb_run (m : Manager) (n : Net) : Manager * Net * list string * fb_result A :=
  match current_base_url m with
  | None => (m, n, [], FbCrash)
  | Some _ => fb_loop (S (List.length (mirrors m))) [] None m n
  end.

End Loop.

End Fallback.

(** ** Requests, search and series lookup ([BatoService]) *)

Module Service.
Import Mirror Fallback.

(** The body of a GraphQL POST, by its query and variables. *)
Inductive query : Type :=
| QSearch (word : string) (page : Z)
| QComic (comic_id : string)
| QChapters (comic_id : string).

(** A response after [raise_for_status()] and [response.json()]:
    [RespFail] is any [RequestException] on the way (connection error,
    HTTP error status, body that is no JSON). *)
Inductive response : Type :=
| RespFail (e : string)
| RespJson (v : pyval).

(** A GET as [_request_with_fallback] issues it. *)
Inductive text_response : Type :=
| GetFail (e : string)
| GetText (t : string).

Record SearchHit : Type := { hit_title : pyval; hit_url : string; hit_subtitle : pyval }.

Record Chapter : Type := { ch_title : pyval; ch_url : string; ch_label : pyval }.

Record SeriesInfo : Type := {
  si_title : pyval;
  si_description : pyval;
  si_attributes : list (string * pyval);
  si_chapters : list Chapter;
  si_url : string
}.

Inductive search_result : Type :=
| SearchOk (hits : list SearchHit)
| SearchRaise (e : string)
| SearchCrash.

Inductive series_result : Type :=
| SeriesOk (info : SeriesInfo)
| SeriesInvalid
| SeriesRaise (e : string)
| SeriesCrash.

(** [if "errors" in data: raise RequestException(f"GraphQL error: {data['errors']}")]. *)
Definition graphql_check (v : pyval) : outcome pyval :=
  match py_in "errors" v with
  | None => WCrash
  | Some false => WOk v
  | Some true =>
    match v with
    | PDict kvs =>
      WFail ("GraphQL error: " ++ py_str (match dict_lookup kvs (PStr "errors") with
                                         | Some x => x | None => PNone end))
    | _ => WCrash
    end
  end.

(** [x.get(k1, {}).get(k2, default)]. *)
Definition get2 (v : pyval) (k1 k2 : string) (default : pyval) : option pyval :=
  match get v k1 (PDict []) with
  | Some d => get d k2 default
  | None => None
  end.

Section Requests.
Context {Net : Type}.
Variable http_get : string -> Net -> Net * text_response.
Variable post : string -> query -> Net -> Net * response.
Variable urljoin : string -> string -> string.

(** The [try] body of [_request_with_fallback]. *)
Definition request_attempt (path : string) (cur : string) (n : Net) : Net * outcome string :=
  let '(n1, r) := http_get (urljoin cur path) n in
  match r with
  | GetFail e => (n1, WFail e)
  | GetText t => (n1, WOk t)
  end.

Definition request_with_fallback (path : string) (m : Manager) (n : Net) :=
  fb_run (request_attempt path) m n.

(** The [try] body of [_search_with_fallback]. *)
Definition search_attempt (word : string) (page : Z) (cur : string) (n : Net) : Net * outcome pyval :=
  let '(n1, r) := post (urljoin cur "/apo/") (QSearch word page) n in
  match r with
  | RespFail e => (n1, WFail e)
  | RespJson v =>
    (n1, match graphql_check v with
         | WOk v =>
           match get2 v "data" "get_content_searchComic" (PDict []) with
           | Some res => match get res "items" (PList []) with
                         | Some items => WOk items
                         | None => WCrash
                         end
           | None => WCrash
           end
         | WFail e => WFail e
         | WCrash => WCrash
         end)
  end.

Definition search_with_fallback (word : string) (page : Z) (m : Manager) (n : Net) :=
  fb_run (search_attempt word page) m n.

(** The [try] body of [_get_series_info_graphql]: the metadata POST, then
    the chapter-list POST, both to the API of the same mirror. *)
Definition series_attempt (comic_id : string) (cur : string) (n : Net)
  : Net * outcome (pyval * pyval) :=
  let api_url := urljoin cur "/apo/" in
  let '(n1, r1) := post api_url (QComic comic_id) n in
  match r1 with
  | RespFail e => (n1, WFail e)
  | RespJson comic_result =>
    match graphql_check comic_result with
    | WFail e => (n1, WFail e)
    | WCrash => (n1, WCrash)
    | WOk _ =>
      let '(n2, r2) := post api_url (QChapters comic_id) n1 in
      match r2 with
      | RespFail e => (n2, WFail e)
      | RespJson chapters_result =>
        match graphql_check chapters_result with
        | WFail e => (n2, WFail e)
        | WCrash => (n2, WCrash)
        | WOk _ =>
          match get2 comic_result "data" "get_content_comicNode" (PDict []),
                get2 chapters_result "data" "get_content_chapterList" (PList []) with
          | Some comic_data, Some chapters_data => (n2, WOk (comic_data, chapters_data))
          | _, _ => (n2, WCrash)
          end
        end
      end
    end
  end.

Definition get_series_info_graphql (comic_id : string) (m : Manager) (n : Net) :=
  fb_run (series_attempt comic_id) m n.

(** The loop over the items of one page in [search_manga]: [None] is an
    exception ([AttributeError], [TypeError]). *)
Fixpoint add_items (base : string) (items : list pyval) (results : list SearchHit)
    (seen : list string) : option (list SearchHit * list string) :=
  match items with
  | [] => Some (results, seen)
  | item :: rest =>
    match get item "data" (PDict []) with
    | None => None
    | Some data =>
      match get data "urlPath" (PStr "") with
      | None => None
      | Some url_path =>
        if negb (truthy url_path) then add_items base rest results seen
        else
          match url_path with
          | PStr p =>
            let series_url := urljoin base p in
            if existsb (String.eqb series_url) seen then add_items base rest results seen
            else
              match get data "name" (PStr "Unknown"), get data "slug" (PStr "") with
              | Some t, Some s =>
                add_items base rest
                  (app results [{| hit_title := t; hit_url := series_url; hit_subtitle := s |}])
                  (series_url :: seen)
              | _, _ => None
              end
          | _ => None
          end
      end
    end
  end.

(** The [for page in ...] loop of [search_manga]; the list of pages is the
    pages for which [_search_with_fallback] was called. *)
Fixpoint search_pages (word : string) (pages : list Z) (results : list SearchHit)
    (seen : list string) (m : Manager) (n : Net)
  : Manager * Net * list Z * search_result :=
  match pages with
  | [] => (m, n, [], SearchOk results)
  | page :: ps =>
    let '(m1, n1, _, r) := search_with_fallback word page m n in
    match r with
    | FbOk items base =>
      if negb (truthy items) then (m1, n1, [page], SearchOk results)
      else
        match py_iter items with
        | None => (m1, n1, [page], SearchCrash)
        | Some l =>
          match add_items base l results seen with
          | None => (m1, n1, [page], SearchCrash)
          | Some (results', seen') =>
            let '(m2, n2, ps', r') := search_pages word ps results' seen' m1 n1 in
            (m2, n2, page :: ps', r')
          end
        end
    | FbRaise e => (m1, n1, [page], SearchRaise e)
    | FbAllFailed => (m1, n1, [page], SearchRaise ("All mirrors failed for search: " ++ word))
    | FbCrash => (m1, n1, [page], SearchCrash)
    end
  end.

(** [range(1, max(1, max_pages) + 1)]. *)
Definition page_range (max_pages : Z) : list Z :=
  map (fun k => Z.of_nat (S k)) (seq 0 (Z.to_nat (Z.max 1 max_pages))).

(** [search_manga], with [max_pages] already defaulted. *)
Definition search_manga (q : string) (max_pages : Z) (m : Manager) (n : Net)
  : Manager * Net * list Z * search_result :=
  let normalized_query := Str.strip q in
  if String.eqb normalized_query "" then (m, n, [], SearchOk [])
  else search_pages normalized_query (page_range max_pages) [] [] m n.

(** The chapter loop of [get_series_info]. *)
Fixpoint build_chapters (base : string) (chs : list pyval) : option (list Chapter) :=
  match chs with
  | [] => Some []
  | ch :: rest =>
    match get ch "data" (PDict []) with
    | None => None
    | Some ch_data =>
      match get ch_data "urlPath" (PStr "") with
      | None => None
      | Some url_path =>
        if negb (truthy url_path) then build_chapters base rest
        else
          match url_path, get ch_data "dname" (PStr "Unknown") with
          | PStr p, Some t =>
            option_map (cons {| ch_title := t; ch_url := urljoin base p; ch_label := t |})
              (build_chapters base rest)
          | _, _ => None
          end
      end
    end
  end.

(** The part of [get_series_info] after the GraphQL calls. *)
Definition series_info_of (base path : string) (comic_data chapters_data : pyval) : option SeriesInfo :=
  match get comic_data "data" (PDict []) with
  | None => None
  | Some data =>
    match get data "name" (PStr "Unknown Title"), get data "summary" PNone,
          get data "authors" PNone, get data "genres" PNone with
    | Some title, Some summary, Some authors, Some genres =>
      let description :=
        match summary with
        | PDict _ => if truthy summary then get summary "code" (PStr "") else Some (PStr "")
        | _ => Some (PStr "")
        end in
      let attributes :=
        app (if truthy authors then [("Authors", authors)] else [])
            (if truthy genres then [("Genres", genres)] else []) in
      match description, py_iter chapters_data with
      | Some d, Some chs =>
        match build_chapters base chs with
        | Some chapters =>
          Some {| si_title := title; si_description := d; si_attributes := attributes;
                  si_chapters := chapters; si_url := urljoin base path |}
        | None => None
        end
      | _, _ => None
      end
    | _, _, _, _ => None
    end
  end.

(** The digits [\d+] at the start of a string. *)
Fixpoint digits_prefix (s : string) : string :=
  match s with
  | String c r => if Url.is_digit c then String c (digits_prefix r) else EmptyString
  | EmptyString => EmptyString
  end.

(** [re.search(r"/title/(\d+)", path).group(1)]. *)
Fixpoint find_title_id (s : string) : option string :=
  let here :=
    if String.prefix "/title/" s then digits_prefix (substring 7 (String.length s) s)
    else EmptyString in
  if negb (String.eqb here "") then Some here
  else match s with
       | EmptyString => None
       | String _ r => find_title_id r
       end.

(** [get_series_info]. *)
Definition get_series_info (series_url : string) (m : Manager) (n : Net)
  : Manager * Net * series_result :=
  match Url.urlparse series_url with
  | None => (m, n, SeriesCrash)
  | Some (parsed, _) =>
    let path := Url.path parsed in
    match find_title_id path with
    | None => (m, n, SeriesInvalid)
    | Some comic_id =>
      let '(m1, n1, _, r) := get_series_info_graphql comic_id m n in
      match r with
      | FbOk (comic_data, chapters_data) base =>
        match series_info_of base path comic_data chapters_data with
        | Some info => (m1, n1, SeriesOk info)
        | None => (m1, n1, SeriesCrash)
        end
      | FbRaise e => (m1, n1, SeriesRaise e)
      | FbAllFailed => (m1, n1, SeriesRaise ("All mirrors failed for comic ID: " ++ comic_id))
      | FbCrash => (m1, n1, SeriesCrash)
      end
    end
  end.

End Requests.

(** [_apply_rate_limit]: [last] is [_last_request_time], [delay] is
    [_rate_limit_delay], [t1] the first [time.time()]. The result is the
    argument of [time.sleep], [None] when it is not called; the new
    [_last_request_time] is the second [time.time()], read after the sleep.
    Times are rationals: the rounding of floats is not modelled. *)
Definition rate_limit_sleep (last delay t1 : Q) : option Q :=
  if negb (Qle_bool last 0) then
    let elapsed := (t1 - last)%Q in
    if negb (Qle_bool delay elapsed) then Some (delay - elapsed)%Q else None
  else None.

End Service.

(** ** Properties stated over the model *)

Module Props.
Import Mirror Fallback Service.

(** The invariant of a mirror store: [base_url]s non-empty and distinct,
    [current_index] in range when there are records. *)
Definition store_inv (m : Manager) : Prop :=
  Forall (fun c => base_url c <> "") (mirrors m) /\
  NoDup (map base_url (mirrors m)) /\
  (mirrors m <> [] -> (0 <= current_index m < Z.of_nat (List.length (mirrors m)))%Z).

(** The invariant on a store that has records, as every store the code
    builds does. *)
Definition live_store (m : Manager) : Prop := mirrors m <> [] /\ store_inv m.

(** A [dict[str, str]] as the model holds it. *)
Definition str_dict (kvs : list (pyval * pyval)) : Prop :=
  Forall (fun kv => exists k v, kv = (PStr k, PStr v)) kvs /\ NoDup (map fst kvs).

(** A store as the data model describes it: at least one record, each an
    origin with no trailing slash and a [str -> str] parameter map, and an
    index in range. *)
Definition wf_store (m : Manager) : Prop :=
  mirrors m <> [] /\
  (0 <= current_index m < Z.of_nat (List.length (mirrors m)))%Z /\
  Forall (fun c => Str.rstrip_slash (base_url c) = base_url c /\ str_dict (search_params c))
    (mirrors m).

(** A caller calling [next_mirror] until it returns [None]: the mirrors it
    returned, in order, and the final store. *)
Fixpoint advance_all (fuel : nat) (m : Manager) : list MirrorConfig * Manager :=
  match fuel with
  | O => ([], m)
  | S f =>
    match next_mirror m with
    | (m', None) => ([], m')
    | (m', Some c) => let '(l, m'') := advance_all f m' in (c :: l, m'')
    end
  end.

(** [m2] is reached from [m1] by successful [next_mirror] calls only. *)
Inductive next_steps : Manager -> Manager -> Prop :=
| ns_refl m : next_steps m m
| ns_step m m1 c m2 : next_mirror m = (m1, Some c) -> next_steps m1 m2 -> next_steps m m2.

(** The file a store is saved to, read back after an external edit kept
    only its first [k] records. *)
Definition shrunk_file (k : nat) (m : Manager) : pyval :=
  PDict [(PStr "mirrors", PList (firstn k (map mirror_to_py (mirrors m))));
         (PStr "current_index", PInt (current_index m))].

(** [urljoin(base, ref)] for an origin [base] and a reference [ref] that is
    an absolute path: the two are concatenated. The concrete runs below only
    join such pairs. *)
Definition urljoin_origin (base ref : string) : string :=
  if String.prefix "/" ref then base ++ ref else ref.

(** A chapter entry of the upstream chapter list. *)
Definition chapter_entry (id url_path : string) (dname : pyval) : pyval :=
  PDict [(PStr "id", PStr id);
         (PStr "data", PDict [(PStr "id", PStr id); (PStr "urlPath", PStr url_path);
                              (PStr "dname", dname)])].

(** What one entry [ch] of the upstream chapter list contributes to the
    chapters of [get_series_info]: nothing when [urlPath] is missing or
    empty, else one chapter. *)
Definition chapter_of (urljoin : string -> string -> string) (base : string) (ch : pyval)
  : list Chapter :=
  match get ch "data" (PDict []) with
  | Some d =>
    match get d "urlPath" (PStr "") with
    | Some (PStr p) =>
      if String.eqb p "" then []
      else match get d "dname" (PStr "Unknown") with
           | Some t => [{| ch_title := t; ch_url := urljoin base p; ch_label := t |}]
           | None => []
           end
    | _ => []
    end
  | None => []
  end.

(** A network that records every URL it is asked for and fails on each. *)
Definition failing_log (cur : string) (log : list string) : list string * outcome string :=
  (app log [cur], WFail ("Mirror down: " ++ cur)).

(** A network that records every URL it is asked for and answers only on
    [bato.ing]. *)
Definition ing_only_log (cur : string) (log : list string) : list string * outcome string :=
  (app log [cur],
   if String.eqb cur "https://bato.ing" then WOk ("payload from " ++ cur)
   else WFail ("Mirror down: " ++ cur)).

(** The upstream chapter list the service tests use, newest first. *)
Definition test_chapter_entries : list (string * string * pyval) :=
  [("ch2", "/chapter/2", PStr "Ch 2 Title Two"); ("ch1", "/chapter/1", PStr "Ch 1 Title One")].

Definition entry_of (e : string * string * pyval) : pyval :=
  chapter_entry (fst (fst e)) (snd (fst e)) (snd e).

(** The responses of the API in the service tests. *)
Definition comic_ok : pyval :=
  PDict [(PStr "data", PDict [(PStr "get_content_comicNode",
    PDict [(PStr "data", PDict [(PStr "name", PStr "Sample Series")])])])].

Definition chapters_ok : pyval :=
  PDict [(PStr "data", PDict [(PStr "get_content_chapterList",
    PList (map entry_of test_chapter_entries))])].

(** An API that records each POST; on [bato.to] the chapter list fails. *)
Definition flaky_chapters_post (url : string) (q : query) (log : list (string * query))
  : list (string * query) * response :=
  (app log [(url, q)],
   match q with
   | QChapters _ => if String.eqb url "https://bato.to/apo/" then RespFail "Read timed out"
                    else RespJson chapters_ok
   | _ => RespJson comic_ok
   end).

(** The fake scraper of the service tests: every POST answers, search pages
    are empty. *)
Definition fake_post (url : string) (q : query) (log : list (string * query))
  : list (string * query) * response :=
  (app log [(url, q)],
   match q with
   | QSearch _ _ => RespJson (PDict [(PStr "data", PDict [(PStr "get_content_searchComic",
                                      PDict [(PStr "items", PList [])])])])
   | QComic _ => RespJson comic_ok
   | QChapters _ => RespJson chapters_ok
   end).

(** A hand-edited configuration file: an entry with an empty [base_url],
    the same origin twice (once with a trailing slash) and a negative
    index. *)
Definition malformed_file : pyval :=
  PDict [(PStr "mirrors", PList [PDict [(PStr "base_url", PStr "")];
                                 PStr "https://bato.to/"; PStr "https://bato.to"]);
         (PStr "current_index", PInt (-1))].

(** The files whose ["current_index"], when present, is an integer: the
    domain in which the model's [load_config] follows the code (a float
    index is not represented). *)
Definition int_index (f : config_file) : Prop :=
  match f with
  | FJson data => forall ci, get data "current_index" (PInt 0) = Some ci -> as_int ci <> None
  | _ => True
  end.

(** Every [base_url] is its own [rstrip("/")]. *)
Definition slash_free (l : list MirrorConfig) : Prop :=
  Forall (fun c => Str.rstrip_slash (base_url c) = base_url c) l.

(** The record [_load_config] builds from a legacy URL string. *)
Definition legacy_mirror (u : string) : MirrorConfig :=
  {| base_url := Str.rstrip_slash u; search_path := "/v4x-search"; search_params := comic_params |}.

(** An entry [_load_config] skips: neither a string nor a dict with the
    key ["base_url"]. *)
Definition skipped_entry (e : pyval) : Prop :=
  match e with
  | PStr _ => False
  | PDict kvs => existsb (fun kv => py_eq (fst kv) (PStr "base_url")) kvs = false
  | _ => True
  end.

(** A search hit as the API returns it. *)
Definition search_item (url_path name : string) : pyval :=
  PDict [(PStr "data", PDict [(PStr "urlPath", PStr url_path); (PStr "name", PStr name)])].

(** An API whose search pages 1 and 2 both list the same series, the
    first one twice; later pages are empty. *)
Definition repeat_post (url : string) (q : query) (log : list (string * query))
  : list (string * query) * response :=
  (app log [(url, q)],
   match q with
   | QSearch _ page =>
     RespJson (PDict [(PStr "data", PDict [(PStr "get_content_searchComic",
       PDict [(PStr "items",
         PList (if (page <=? 2)%Z
                then [search_item "/title/1-a" "A"; search_item "/title/1-a" "A";
                      search_item "/title/2-b" "B"]
                else []))])])])
   | QComic _ => RespJson comic_ok
   | QChapters _ => RespJson chapters_ok
   end).

End Props.

(** * Theorems *)

Module Cycle.
Import Mirror Props Fallback.

Lemma skipn_nth_error {A} (l : list A) (i : nat) (x : A) :
  nth_error l i = Some x -> skipn i l = x :: skipn (S i) l.
Proof.
  revert i; induction l as [|y l IH]; intros [|i] H; simpl in *; try discriminate.
  - now inversion H.
  - now apply IH.
Qed.

Lemma advance_all_S (f : nat) (m : Manager) :
  advance_all (S f) m =
  match next_mirror m with
  | (m', None) => ([], m')
  | (m', Some c) => let '(l, m'') := advance_all f m' in (c :: l, m'')
  end.
Proof. reflexivity. Qed.

(** From an index [i] in range, [next_mirror] called until it returns
    [None] returns the mirrors after position [i] and stops at the last. *)
Lemma advance_all_from (k : nat) (l : list MirrorConfig) (i : nat) :
  i + 1 + k = List.length l ->
  advance_all (S k) {| mirrors := l; current_index := Z.of_nat i |} =
  (skipn (S i) l, {| mirrors := l; current_index := Z.of_nat (List.length l - 1) |}).
Proof.
  revert i; induction k as [|k IH]; intros i Hlen.
  - cbn [advance_all]. unfold next_mirror; cbn [mirrors current_index].
    replace (Z.of_nat i + 1)%Z with (Z.of_nat (List.length l)) by lia.
    rewrite Z_mod_same_full, Z.eqb_refl, skipn_all2 by lia.
    replace (List.length l - 1) with i by lia.
    destruct (Z.of_nat (List.length l) <=? 1)%Z; reflexivity.
  - rewrite advance_all_S. unfold next_mirror; cbn [mirrors current_index].
    assert (Hlt : (Z.of_nat i + 1 < Z.of_nat (List.length l))%Z) by lia.
    replace ((Z.of_nat (List.length l) <=? 1)%Z) with false by lia.
    rewrite Z.mod_small by lia.
    replace ((Z.of_nat i + 1 =? 0)%Z) with false by lia.
    unfold set_index; cbn [mirrors].
    replace (Z.of_nat i + 1)%Z with (Z.of_nat (S i)) by lia.
    rewrite (IH (S i)) by lia.
    unfold py_index.
    replace ((0 <=? Z.of_nat (S i))%Z && (Z.of_nat (S i) <? Z.of_nat (List.length l))%Z)
      with true by (symmetry; apply andb_true_iff; split; [apply Z.leb_le | apply Z.ltb_lt]; lia).
    rewrite Nat2Z.id.
    destruct (nth_error l (S i)) as [x|] eqn:Hx.
    + rewrite (skipn_nth_error l (S i) x Hx). reflexivity.
    + apply nth_error_None in Hx. lia.
Qed.

(** C1: from index 1 of the three default mirrors, [next_mirror] returns
    [bato.ing] and then [None]: [bato.to] (index 0) is never visited. *)
Theorem next_mirror_cycle_skips_head :
  advance_all 3 {| mirrors := DEFAULT_MIRRORS; current_index := 1%Z |} =
    ([mk_default "https://bato.ing"], {| mirrors := DEFAULT_MIRRORS; current_index := 2%Z |}) /\
  ~ In "https://bato.to"
      (map base_url (fst (advance_all 3 {| mirrors := DEFAULT_MIRRORS; current_index := 1%Z |}))).
Proof.
  split.
  - vm_compute. reflexivity.
  - vm_compute. intros [H | []]. discriminate H.
Qed.

(** C2: with the store [A; B; C] at [C] and every request failing, the
    loop tries [C] only, never [A], then resets to index 0 and raises the
    failure of [C]. *)
Theorem fallback_from_last_no_wraparound :
  fb_run failing_log {| mirrors := DEFAULT_MIRRORS; current_index := 2%Z |} [] =
  ({| mirrors := DEFAULT_MIRRORS; current_index := 0%Z |},
   ["https://bato.ing"], ["https://bato.ing"],
   FbRaise "Mirror down: https://bato.ing").
Proof. vm_compute. reflexivity. Qed.

End Cycle.

Module UrlClaims.
Import Mirror Parse.

Lemma dict_set_keys (acc : list (pyval * pyval)) (k0 v0 k : pyval) :
  In k (map fst (dict_set acc k0 v0)) -> In k (map fst acc) \/ k = k0.
Proof.
  induction acc as [|[k' v'] acc IH]; simpl.
  - intros [H | []]. now right.
  - destruct (py_eq k' k0); simpl.
    + intros [H | H]; auto.
    + intros [H | H]; auto. destruct (IH H); auto.
Qed.

Lemma collect_params_keys (qp : list (string * list string)) :
  forall acc k, In k (map fst (collect_params acc qp)) ->
  In k (map fst acc) \/ exists s, k = PStr s /\ ~ In (Str.lower s) excluded_params.
Proof.
  induction qp as [|[key values] qp IH]; simpl; intros acc k H; auto.
  destruct (IH _ _ H) as [H1 | H1]; auto.
  destruct (keep_param key values) eqn:Hk; auto.
  destruct (dict_set_keys _ _ _ _ H1) as [H2 | H2]; auto.
  right. exists key. split; auto.
  unfold keep_param in Hk. apply andb_true_iff in Hk as [Hk _].
  apply negb_true_iff in Hk. intro Hin.
  assert (existsb (String.eqb (Str.lower key)) excluded_params = true) as Hc.
  { apply existsb_exists. exists (Str.lower key). split; auto. apply String.eqb_refl. }
  congruence.
Qed.

(** C9: the example of the spec, and the rules it illustrates: a missing
    scheme becomes [https://], the session keys are dropped whatever their
    case, a repeated key keeps its first value, and no excluded key is ever
    kept. *)
Theorem parse_search_url_example :
  parse_search_url "bato.ing/v4x-search?type=comic&word=test&page=2" =
    Some {| base_url := "https://bato.ing"; search_path := "/v4x-search";
            search_params := [(PStr "type", PStr "comic")] |} /\
  parse_search_url "bato.ing/s?type=comic&Type=x&type=manga&WORD=a&Page=2&Q=b&query=c&Search=d&keyword=e" =
    Some {| base_url := "https://bato.ing"; search_path := "/s";
            search_params := [(PStr "type", PStr "comic"); (PStr "Type", PStr "x")] |} /\
  (forall url c k, parse_search_url url = Some c -> In k (map fst (search_params c)) ->
     exists s, k = PStr s /\ ~ In (Str.lower s) excluded_params).
Proof.
  split; [vm_compute; reflexivity|].
  split; [vm_compute; reflexivity|].
  intros url c k Hp Hk. unfold parse_search_url in Hp.
  destruct (String.eqb (Str.strip url) "") ; [discriminate|].
  destruct (Url.urlparse _) as [[parsed params]|]; [|discriminate].
  destruct (String.eqb (Url.netloc parsed) ""); [discriminate|].
  injection Hp as <-. cbn [search_params] in Hk.
  destruct (collect_params_keys _ [] k Hk) as [[] | H]; exact H.
Qed.

End UrlClaims.

Module FallbackClaims.
Import Mirror Props Fallback.

Lemma next_mirror_mirrors (m m1 : Manager) (x : option MirrorConfig) :
  next_mirror m = (m1, x) -> mirrors m1 = mirrors m.
Proof.
  unfold next_mirror, set_index.
  destruct (_ <=? 1)%Z; [intros H; now inversion H|].
  destruct (_ =? 0)%Z; intros H; now inversion H.
Qed.

Section Loop.
Context {Net A : Type}.
Variable work : string -> Net -> Net * outcome A.

Lemma fb_loop_S (f : nat) (tried : list string) (last : option string) (m : Manager) (n : Net) :
  fb_loop work (S f) tried last m n =
  match current_base_url m with
  | None => (m, n, tried, FbCrash)
  | Some cur =>
    if existsb (String.eqb cur) tried then exhausted m n tried last
    else
      let tried' := app tried [cur] in
      let '(n', r) := work cur n in
      match r with
      | WOk a => (m, n', tried', FbOk a cur)
      | WCrash => (m, n', tried', FbCrash)
      | WFail e =>
        let '(m', nx) := next_mirror m in
        match nx with
        | None => exhausted m' n' tried' (Some e)
        | Some _ => fb_loop work f tried' (Some e) m' n'
        end
      end
  end.
Proof. reflexivity. Qed.

(** The loop only appends to [tried_mirrors]. *)
Lemma fb_loop_tried_prefix (f : nat) :
  forall tried last m n, exists rest,
  (let '(_, _, t, _) := fb_loop work f tried last m n in t) = app tried rest.
Proof.
  induction f as [|f IH]; intros tried last m n.
  - exists []. simpl. now rewrite app_nil_r.
  - rewrite fb_loop_S.
    destruct (current_base_url m) as [cur|]; [|exists []; now rewrite app_nil_r].
    destruct (existsb _ tried); [exists []; simpl; now rewrite app_nil_r|].
    destruct (work cur n) as [n1 [a|e|]].
    + now exists [cur].
    + destruct (next_mirror m) as [m1 [c|]].
      * destruct (IH (app tried [cur]) (Some e) m1 n1) as [rest Hr].
        destruct (fb_loop work f (app tried [cur]) (Some e) m1 n1) as [[[m2 n2] t2] r2].
        exists (cur :: rest). rewrite Hr, <- app_assoc. reflexivity.
      * now exists [cur].
    + now exists [cur].
Qed.

(** A loop that returns success returns the payload of the last mirror
    it tried, which is then the current mirror, reached by [next_mirror]
    calls only. *)
Lemma fb_loop_ok (f : nat) :
  forall tried last m n m' n' t a b,
  fb_loop work f tried last m n = (m', n', t, FbOk a b) ->
  current_base_url m' = Some b /\ mirrors m' = mirrors m /\ next_steps m m' /\
  (exists n0, work b n0 = (n', WOk a)) /\ (exists t0, t = app t0 [b]).
Proof.
  induction f as [|f IH]; intros tried last m n m' n' t a b H.
  - simpl in H. unfold exhausted in H. destruct last; discriminate.
  - rewrite fb_loop_S in H.
    destruct (current_base_url m) as [cur|] eqn:Hc; [|discriminate].
    destruct (existsb _ tried).
    { unfold exhausted in H. destruct last; discriminate. }
    destruct (work cur n) as [n1 [a0|e|]] eqn:Hw.
    + injection H as <- <- <- <- <-.
      repeat split; auto.
      * constructor.
      * now exists n.
      * now exists tried.
    + destruct (next_mirror m) as [m1 [c|]] eqn:Hn.
      * destruct (IH _ _ _ _ _ _ _ _ _ H) as (H1 & H2 & H3 & H4 & H5).
        repeat split; auto.
        -- rewrite H2. eapply next_mirror_mirrors; eauto.
        -- eapply ns_step; eauto.
      * unfold exhausted in H. discriminate.
    + discriminate.
Qed.

(** The first pass of a fresh loop tries the current mirror. *)
Lemma fb_run_first (m : Manager) (n : Net) (cur : string) :
  current_base_url m = Some cur ->
  exists rest, (let '(_, _, t, _) := fb_run work m n in t) = cur :: rest.
Proof.
  intros Hc. unfold fb_run. rewrite Hc, fb_loop_S, Hc. cbn [existsb app].
  destruct (work cur n) as [n1 [a|e|]].
  - now exists [].
  - destruct (next_mirror m) as [m1 [c|]].
    + exact (fb_loop_tried_prefix _ [cur] (Some e) m1 n1).
    + now exists [].
  - now exists [].
Qed.

(** A first attempt that fails goes on exactly as [next_mirror] says. *)
Lemma fb_run_first_fail (m : Manager) (n n1 : Net) (cur e : string) :
  current_base_url m = Some cur -> work cur n = (n1, WFail e) ->
  fb_run work m n =
  let '(m1, nx) := next_mirror m in
  match nx with
  | None => exhausted m1 n1 [cur] (Some e)
  | Some _ => fb_loop work (List.length (mirrors m)) [cur] (Some e) m1 n1
  end.
Proof.
  intros Hc Hw. unfold fb_run. rewrite Hc, fb_loop_S, Hc. cbn [existsb app].
  rewrite Hw. reflexivity.
Qed.

End Loop.

(** C3: a request that succeeds on a mirror returns that mirror's payload,
    leaves the store at that mirror (reached by [next_mirror] calls only:
    [reset_to_primary] is not called), and the next request, of any kind,
    tries that mirror first. *)
Theorem fallback_success_keeps_mirror {Net A : Type}
    (work : string -> Net -> Net * outcome A) (m : Manager) (n : Net)
    (m' : Manager) (n' : Net) (t : list string) (a : A) (b : string) :
  fb_run work m n = (m', n', t, FbOk a b) ->
  current_base_url m' = Some b /\ mirrors m' = mirrors m /\ next_steps m m' /\
  (exists n0, work b n0 = (n', WOk a)) /\ (exists t0, t = app t0 [b]) /\
  (forall (Net2 B : Type) (work2 : string -> Net2 -> Net2 * outcome B) (n2 : Net2),
     exists rest, (let '(_, _, t2, _) := fb_run work2 m' n2 in t2) = b :: rest).
Proof.
  unfold fb_run at 1. intros H.
  destruct (current_base_url m) as [c0|] eqn:Hc0; [|discriminate].
  destruct (fb_loop_ok work _ _ _ _ _ _ _ _ _ _ H) as (H1 & H2 & H3 & H4 & H5).
  repeat split; auto.
  intros Net2 B work2 n2. now apply fb_run_first.
Qed.

(** The run of the spec's scenario: [A] and [B] fail, [C] answers. *)
Lemma fallback_success_keeps_mirror_witness :
  fb_run ing_only_log {| mirrors := DEFAULT_MIRRORS; current_index := 0%Z |} [] =
    ({| mirrors := DEFAULT_MIRRORS; current_index := 2%Z |},
     ["https://bato.to"; "https://bato.si"; "https://bato.ing"],
     ["https://bato.to"; "https://bato.si"; "https://bato.ing"],
     FbOk "payload from https://bato.ing" "https://bato.ing") /\
  current_base_url {| mirrors := DEFAULT_MIRRORS; current_index := 2%Z |} = Some "https://bato.ing".
Proof.
  assert (H : fb_run ing_only_log {| mirrors := DEFAULT_MIRRORS; current_index := 0%Z |} [] =
    ({| mirrors := DEFAULT_MIRRORS; current_index := 2%Z |},
     ["https://bato.to"; "https://bato.si"; "https://bato.ing"],
     ["https://bato.to"; "https://bato.si"; "https://bato.ing"],
     FbOk "payload from https://bato.ing" "https://bato.ing")) by (vm_compute; reflexivity).
  split; [exact H|].
  exact (proj1 (fallback_success_keeps_mirror _ _ _ _ _ _ _ _ H)).
Defined.

End FallbackClaims.

Module ServiceClaims.
Import Mirror Props Fallback Service FallbackClaims.

Lemma graphql_check_ok (v v' : pyval) : graphql_check v = WOk v' -> v' = v.
Proof.
  unfold graphql_check. destruct (py_in "errors" v) as [[|]|]; try discriminate.
  - destruct v; discriminate.
  - congruence.
Qed.

Section Series.
Context {Net : Type}.
Variable post : string -> query -> Net -> Net * response.
Variable urljoin : string -> string -> string.

(** An attempt succeeds only when the metadata POST and then the
    chapter-list POST to the same API URL both succeed. *)
Lemma series_attempt_ok (cid cur : string) (n n' : Net) (x : pyval * pyval) :
  series_attempt post urljoin cid cur n = (n', WOk x) ->
  exists n1 v1 v2,
    post (urljoin cur "/apo/") (QComic cid) n = (n1, RespJson v1) /\ graphql_check v1 = WOk v1 /\
    post (urljoin cur "/apo/") (QChapters cid) n1 = (n', RespJson v2) /\ graphql_check v2 = WOk v2.
Proof.
  unfold series_attempt.
  destruct (post (urljoin cur "/apo/") (QComic cid) n) as [n1 [e1|v1]]; [discriminate|].
  destruct (graphql_check v1) as [v1'|e1|] eqn:G1; try discriminate.
  destruct (post (urljoin cur "/apo/") (QChapters cid) n1) as [n2 [e2|v2]] eqn:P2; [discriminate|].
  destruct (graphql_check v2) as [v2'|e2|] eqn:G2; try discriminate.
  intros H.
  assert (n2 = n') as <-.
  { destruct (get2 v1 "data" "get_content_comicNode" (PDict [])),
    (get2 v2 "data" "get_content_chapterList" (PList [])); now inversion H. }
  apply graphql_check_ok in G1 as E1. apply graphql_check_ok in G2 as E2. subst.
  exists n1, v1, v2. auto.
Qed.

Lemma series_attempt_chapters_fail (cid cur : string) (n n1 n2 : Net) (v1 : pyval) (e : string) :
  post (urljoin cur "/apo/") (QComic cid) n = (n1, RespJson v1) -> graphql_check v1 = WOk v1 ->
  (post (urljoin cur "/apo/") (QChapters cid) n1 = (n2, RespFail e) \/
   exists v2, post (urljoin cur "/apo/") (QChapters cid) n1 = (n2, RespJson v2) /\
              graphql_check v2 = WFail e) ->
  series_attempt post urljoin cid cur n = (n2, WFail e).
Proof.
  intros P1 G1 H2. unfold series_attempt. rewrite P1, G1.
  destruct H2 as [P2 | (v2 & P2 & G2)]; rewrite P2; [reflexivity|]. now rewrite G2.
Qed.

End Series.

(** C8: a series lookup returns success only when, on the mirror it
    returns, the metadata call and then the chapter-list call both
    succeeded; when the metadata call succeeds and the chapter-list call on
    the same mirror fails, the loop goes on as for any failed attempt, with
    [next_mirror]. *)
Theorem series_lookup_same_mirror {Net : Type}
    (post : string -> query -> Net -> Net * response) (urljoin : string -> string -> string)
    (cid : string) (m : Manager) (n : Net) :
  (forall m' n' t cd chd b,
     get_series_info_graphql post urljoin cid m n = (m', n', t, FbOk (cd, chd) b) ->
     exists n0 n1 v1 v2,
       post (urljoin b "/apo/") (QComic cid) n0 = (n1, RespJson v1) /\ graphql_check v1 = WOk v1 /\
       post (urljoin b "/apo/") (QChapters cid) n1 = (n', RespJson v2) /\
       graphql_check v2 = WOk v2) /\
  (forall cur n1 v1 n2 e,
     current_base_url m = Some cur ->
     post (urljoin cur "/apo/") (QComic cid) n = (n1, RespJson v1) -> graphql_check v1 = WOk v1 ->
     (post (urljoin cur "/apo/") (QChapters cid) n1 = (n2, RespFail e) \/
      exists v2, post (urljoin cur "/apo/") (QChapters cid) n1 = (n2, RespJson v2) /\
                 graphql_check v2 = WFail e) ->
     get_series_info_graphql post urljoin cid m n =
     let '(m1, nx) := next_mirror m in
     match nx with
     | None => exhausted m1 n2 [cur] (Some e)
     | Some _ => fb_loop (series_attempt post urljoin cid) (List.length (mirrors m)) [cur] (Some e) m1 n2
     end).
Proof.
  split.
  - intros m' n' t cd chd b H.
    destruct (fallback_success_keeps_mirror _ _ _ _ _ _ _ _ H) as (_ & _ & _ & [n0 Hw] & _).
    destruct (series_attempt_ok _ _ _ _ _ _ _ Hw) as (n1 & v1 & v2 & H1 & H2 & H3 & H4).
    exists n0, n1, v1, v2. auto.
  - intros cur n1 v1 n2 e Hc P1 G1 H2.
    apply fb_run_first_fail; auto.
    eapply series_attempt_chapters_fail; eauto.
Qed.

(** The witness: on [bato.to] the metadata call answers and the chapter
    list fails, so the loop moves on with [next_mirror]. *)
Lemma series_lookup_same_mirror_witness :
  get_series_info_graphql flaky_chapters_post urljoin_origin "12345"
    {| mirrors := DEFAULT_MIRRORS; current_index := 0%Z |} [] =
  let '(m1, nx) := next_mirror {| mirrors := DEFAULT_MIRRORS; current_index := 0%Z |} in
  match nx with
  | None => exhausted m1 [("https://bato.to/apo/", QComic "12345");
                          ("https://bato.to/apo/", QChapters "12345")] ["https://bato.to"]
              (Some "Read timed out")
  | Some _ => fb_loop (series_attempt flaky_chapters_post urljoin_origin "12345") 3
                ["https://bato.to"] (Some "Read timed out") m1
                [("https://bato.to/apo/", QComic "12345");
                 ("https://bato.to/apo/", QChapters "12345")]
  end.
Proof.
  apply (proj2 (series_lookup_same_mirror flaky_chapters_post urljoin_origin "12345"
                  {| mirrors := DEFAULT_MIRRORS; current_index := 0%Z |} [])
               "https://bato.to" [("https://bato.to/apo/", QComic "12345")] comic_ok).
  - reflexivity.
  - reflexivity.
  - vm_compute. reflexivity.
  - left. reflexivity.
Defined.

Lemma series_info_of_chapters (urljoin : string -> string -> string) (base path : string)
    (cd chd : pyval) (info : SeriesInfo) :
  series_info_of urljoin base path cd chd = Some info ->
  exists chs, py_iter chd = Some chs /\ build_chapters urljoin base chs = Some (si_chapters info).
Proof.
  unfold series_info_of.
  destruct (get cd "data" (PDict [])) as [data|]; [|discriminate].
  destruct (get data "name" (PStr "Unknown Title")), (get data "summary" PNone),
           (get data "authors" PNone), (get data "genres" PNone); try discriminate.
  destruct (py_iter chd) as [chs|];
    [|repeat match goal with |- context [match ?x with _ => _ end] => destruct x end;
      discriminate].
  destruct (build_chapters urljoin base chs) as [chapters|] eqn:Hb;
    repeat match goal with |- context [match ?x with _ => _ end] => destruct x end;
    try discriminate.
  all: intros H; injection H as <-; now exists chs.
Qed.

Lemma build_chapters_flat (urljoin : string -> string -> string) (base : string)
    (chs : list pyval) (l : list Chapter) :
  build_chapters urljoin base chs = Some l -> l = flat_map (chapter_of urljoin base) chs.
Proof.
  revert l. induction chs as [|ch rest IH]; intros l H.
  - cbn in H. injection H as <-. reflexivity.
  - cbn [build_chapters] in H. cbn [flat_map]. unfold chapter_of at 1.
    destruct (get ch "data" (PDict [])) as [d|]; [|discriminate].
    destruct (get d "urlPath" (PStr "")) as [u|]; [|discriminate].
    destruct (negb (truthy u)) eqn:Ht.
    + rewrite (IH _ H).
      destruct u as [| | | p | |]; try reflexivity.
      cbn in Ht. apply negb_true_iff, negb_false_iff, String.eqb_eq in Ht. subst p.
      reflexivity.
    + destruct u as [| | | p | |]; try discriminate.
      cbn in Ht. apply negb_false_iff, negb_true_iff in Ht. rewrite Ht.
      destruct (get d "dname" (PStr "Unknown")) as [ti|]; [|discriminate].
      destruct (build_chapters urljoin base rest) as [r|] eqn:Hr; [|discriminate].
      cbn in H. injection H as <-. cbn [app]. f_equal. exact (IH _ eq_refl).
Qed.

(** C4, as the code has it: a successful [get_series_info] returns the
    chapters of the upstream chapter list in the upstream order: one per
    entry whose [urlPath] is non-empty, in the order of the entries, for
    entries of any shape; nothing reverses them. *)
Theorem series_chapters_upstream_order {Net : Type}
    (post : string -> query -> Net -> Net * response) (urljoin : string -> string -> string)
    (url : string) (m : Manager) (n : Net) (m' : Manager) (n' : Net) (info : SeriesInfo) :
  get_series_info post urljoin url m n = (m', n', SeriesOk info) ->
  exists cid base path cd chd t chs,
    get_series_info_graphql post urljoin cid m n = (m', n', t, FbOk (cd, chd) base) /\
    series_info_of urljoin base path cd chd = Some info /\
    py_iter chd = Some chs /\
    si_chapters info = flat_map (chapter_of urljoin base) chs.
Proof.
  unfold get_series_info.
  destruct (Url.urlparse url) as [[parsed params]|]; [|discriminate].
  destruct (find_title_id (Url.path parsed)) as [cid|]; [|discriminate].
  destruct (get_series_info_graphql post urljoin cid m n) as [[[m1 n1] t] r] eqn:Hg.
  destruct r as [[cd chd] base| e | |]; try discriminate.
  destruct (series_info_of urljoin base (Url.path parsed) cd chd) as [info'|] eqn:Hs;
    [|discriminate].
  intros H. injection H as <- <- <-.
  destruct (series_info_of_chapters _ _ _ _ _ _ Hs) as (chs & Hi & Hb).
  exists cid, base, (Url.path parsed), cd, chd, t, chs.
  split; [exact Hg|]. split; [exact Hs|]. split; [exact Hi|].
  exact (build_chapters_flat _ _ _ _ Hb).
Qed.

(** The witness: the run of the service test on the title URL of a sample
    series, whose chapter list is [test_chapter_entries]. *)
Lemma series_chapters_upstream_order_witness :
  match get_series_info fake_post urljoin_origin "https://bato.to/title/12345-sample-series"
          {| mirrors := DEFAULT_MIRRORS; current_index := 0%Z |} [] with
  | (_, _, SeriesOk info) =>
    exists cid base path cd chd t chs,
      get_series_info_graphql fake_post urljoin_origin cid
        {| mirrors := DEFAULT_MIRRORS; current_index := 0%Z |} [] =
        ({| mirrors := DEFAULT_MIRRORS; current_index := 0%Z |},
         [("https://bato.to/apo/", QComic "12345"); ("https://bato.to/apo/", QChapters "12345")],
         t, FbOk (cd, chd) base) /\
      series_info_of urljoin_origin base path cd chd = Some info /\
      py_iter chd = Some chs /\
      si_chapters info = flat_map (chapter_of urljoin_origin base) chs
  | _ => False
  end.
Proof.
  destruct (get_series_info fake_post urljoin_origin "https://bato.to/title/12345-sample-series"
              {| mirrors := DEFAULT_MIRRORS; current_index := 0%Z |} [])
    as [[m' n'] r] eqn:Hr.
  destruct r as [info| | |]; try (vm_compute in Hr; discriminate).
  assert (Hm : m' = {| mirrors := DEFAULT_MIRRORS; current_index := 0%Z |} /\
               n' = [("https://bato.to/apo/", QComic "12345");
                     ("https://bato.to/apo/", QChapters "12345")])
    by (vm_compute in Hr; injection Hr as Hm Hn _; subst; split; reflexivity).
  destruct Hm as [-> ->].
  exact (series_chapters_upstream_order fake_post urljoin_origin _ _ _ _ _ info Hr).
Defined.

(** C4 counterexample: the API of the service test lists the chapters
    newest first ([Ch 2], then [Ch 1]); [get_series_info] returns them in
    that same order, not reversed to oldest first. *)
Lemma series_chapters_not_reversed :
  match get_series_info fake_post urljoin_origin "https://bato.to/title/12345-sample-series"
          {| mirrors := DEFAULT_MIRRORS; current_index := 0%Z |} [] with
  | (_, _, SeriesOk info) =>
    map ch_title (si_chapters info) = map snd test_chapter_entries /\
    map ch_title (si_chapters info) <> rev (map snd test_chapter_entries)
  | _ => False
  end.
Proof. vm_compute. split; [reflexivity | discriminate]. Qed.

Lemma page_range_nonpositive (max_pages : Z) :
  (max_pages <= 0)%Z -> page_range max_pages = [1%Z].
Proof. intros H. unfold page_range. rewrite Z.max_l by lia. reflexivity. Qed.

(** C10: for a query that is not blank after stripping and a page limit
    [max_pages <= 0], [search_manga] requests exactly the page [1]: the
    page bound is [max 1 max_pages]. *)
Theorem search_nonpositive_pages_single_request {Net : Type}
    (post : string -> query -> Net -> Net * response) (urljoin : string -> string -> string)
    (q : string) (max_pages : Z) (m : Manager) (n : Net) :
  Str.strip q <> "" -> (max_pages <= 0)%Z ->
  let '(_, _, pages, _) := search_manga post urljoin q max_pages m n in pages = [1%Z].
Proof.
  intros Hq Hp. unfold search_manga.
  destruct (String.eqb (Str.strip q) "") eqn:He.
  { apply String.eqb_eq in He. contradiction. }
  rewrite (page_range_nonpositive _ Hp). cbn [search_pages].
  destruct (search_with_fallback post urljoin (Str.strip q) 1 m n) as [[[m1 n1] t] r].
  destruct r as [items base| e | |]; try reflexivity.
  destruct (negb (truthy items)); [reflexivity|].
  destruct (py_iter items) as [l|]; [|reflexivity].
  destruct (add_items urljoin base l [] []) as [[results' seen']|]; reflexivity.
Qed.

(** The witness: the query [" query "] with [max_pages = 0]. *)
Lemma search_nonpositive_pages_single_request_witness :
  Str.strip " query " <> "" /\ (0 <= 0)%Z /\
  let '(_, _, pages, _) := search_manga fake_post urljoin_origin " query " 0
                             {| mirrors := DEFAULT_MIRRORS; current_index := 0%Z |} [] in
  pages = [1%Z].
Proof.
  split; [vm_compute; discriminate|]. split; [lia|].
  apply search_nonpositive_pages_single_request; [vm_compute; discriminate | lia].
Defined.

End ServiceClaims.

Module StoreClaims.
Import Mirror Props.

Lemma length_pop_at {A} (i : nat) (l : list A) :
  (i < List.length l)%nat -> List.length (pop_at i l) = pred (List.length l).
Proof.
  intros H. unfold pop_at. rewrite length_app, length_firstn, length_skipn. lia.
Qed.

(** C6: [remove_mirror] fails, leaving the store unchanged, on an index out
    of range or when at most one mirror is left; a successful removal drops
    the mirror at [index], leaves at least one mirror, and adjusts
    [current_index]: clamped to the last position when it fell off the end,
    decremented when the removed mirror preceded it, kept otherwise; from an
    index [0 <= current_index] the result is in range. *)
Theorem remove_mirror_keeps_one (m : Manager) (index : Z) :
  let len := Z.of_nat (List.length (mirrors m)) in
  let '(m', (ok, _)) := remove_mirror m index in
  (ok = false -> m' = m) /\
  ((index < 0 \/ len <= index \/ len <= 1)%Z -> ok = false) /\
  (ok = true ->
     mirrors m' = pop_at (Z.to_nat index) (mirrors m) /\
     Z.of_nat (List.length (mirrors m')) = (len - 1)%Z /\
     (1 <= Z.of_nat (List.length (mirrors m')))%Z /\
     ((len - 1 <= current_index m)%Z -> current_index m' = (len - 2)%Z) /\
     ((index < current_index m < len - 1)%Z -> current_index m' = (current_index m - 1)%Z) /\
     ((current_index m <= index)%Z -> (current_index m < len - 1)%Z ->
        current_index m' = current_index m) /\
     ((0 <= current_index m)%Z ->
        (0 <= current_index m' < Z.of_nat (List.length (mirrors m')))%Z)).
Proof.
  cbv zeta. unfold remove_mirror.
  destruct (negb ((0 <=? index)%Z && (index <? Z.of_nat (List.length (mirrors m)))%Z)) eqn:Hr.
  { repeat split; intros; try discriminate; reflexivity. }
  apply negb_false_iff, andb_true_iff in Hr as [H0 H1].
  apply Z.leb_le in H0. apply Z.ltb_lt in H1.
  destruct (Z.of_nat (List.length (mirrors m)) <=? 1)%Z eqn:H2.
  { repeat split; intros; try discriminate; reflexivity. }
  apply Z.leb_gt in H2.
  assert (Hl : Z.of_nat (List.length (pop_at (Z.to_nat index) (mirrors m))) =
               (Z.of_nat (List.length (mirrors m)) - 1)%Z)
    by (rewrite length_pop_at by lia; lia).
  cbn [mirrors current_index]. rewrite Hl.
  split; [discriminate|]. split; [lia|]. intros _.
  split; [reflexivity|]. split; [reflexivity|]. split; [lia|].
  destruct (Z.of_nat (List.length (mirrors m)) - 1 <=? current_index m)%Z eqn:H3;
    [apply Z.leb_le in H3 | apply Z.leb_gt in H3];
  [|destruct (index <? current_index m)%Z eqn:H4;
    [apply Z.ltb_lt in H4 | apply Z.ltb_ge in H4]];
  repeat split; intros; lia.
Qed.

(** The witness: removing [bato.to] from the default store whose current
    mirror is [bato.ing] at index [2]. *)
Lemma remove_mirror_keeps_one_witness :
  remove_mirror {| mirrors := DEFAULT_MIRRORS; current_index := 2%Z |} 0 =
    ({| mirrors := [mk_default "https://bato.si"; mk_default "https://bato.ing"];
        current_index := 1%Z |}, (true, "Removed mirror: https://bato.to")) /\
  (0 <= 1 < 2)%Z.
Proof.
  pose proof (remove_mirror_keeps_one {| mirrors := DEFAULT_MIRRORS; current_index := 2%Z |} 0)
    as H.
  cbv zeta in H.
  assert (Hr : remove_mirror {| mirrors := DEFAULT_MIRRORS; current_index := 2%Z |} 0 =
    ({| mirrors := [mk_default "https://bato.si"; mk_default "https://bato.ing"];
        current_index := 1%Z |}, (true, "Removed mirror: https://bato.to")))
    by reflexivity.
  rewrite Hr in H. split; [exact Hr|].
  destruct H as (_ & _ & H).
  destruct (H eq_refl) as (_ & _ & _ & _ & _ & _ & Hin).
  apply Hin. cbn. lia.
Defined.

End StoreClaims.

Module PersistClaims.
Import Mirror Props.

Lemma py_eq_str (a b : string) : py_eq (PStr a) (PStr b) = String.eqb a b.
Proof. reflexivity. Qed.

Lemma roundtrip_list (l : list pyval) :
  Forall (fun x => Json.roundtrip x = Some x) l -> Json.roundtrip (PList l) = Some (PList l).
Proof.
  induction 1 as [|x r Hx _ IH]; [reflexivity|].
  cbn [Json.roundtrip] in *. rewrite Hx.
  destruct ((fix go (l : list pyval) : option (list pyval) :=
               match l with
               | [] => Some []
               | x :: r => match Json.roundtrip x, go r with
                           | Some y, Some ys => Some (y :: ys)
                           | _, _ => None
                           end
               end) r) as [ys|]; [|discriminate].
  injection IH as ->. reflexivity.
Qed.

(** A dict whose keys are the strings [fst kv]. *)
Definition pk (kv : string * pyval) : pyval * pyval := (PStr (fst kv), snd kv).

Lemma dict_set_fresh (accs : list (string * pyval)) (k : string) (v : pyval) :
  ~ In k (map fst accs) -> dict_set (map pk accs) (PStr k) v = map pk (app accs [(k, v)]).
Proof.
  induction accs as [|[k' v'] r IH]; intros Hn; [reflexivity|].
  cbn [map dict_set pk fst snd app]. rewrite py_eq_str.
  destruct (String.eqb k' k) eqn:He.
  - apply String.eqb_eq in He. subst. exfalso. apply Hn. now left.
  - rewrite IH; [reflexivity|]. intros Hi. apply Hn. now right.
Qed.

Lemma build_obj_fresh (ss accs : list (string * pyval)) :
  NoDup (app (map fst accs) (map fst ss)) ->
  Json.build_obj (map pk accs) ss = map pk (app accs ss).
Proof.
  revert accs. induction ss as [|[k v] r IH]; intros accs Hd.
  - now rewrite app_nil_r.
  - cbn [Json.build_obj]. cbn [map fst] in Hd.
    rewrite dict_set_fresh.
    + rewrite IH, <- app_assoc; [reflexivity|].
      rewrite map_app, <- app_assoc. exact Hd.
    + intros Hi. apply (NoDup_remove_2 _ _ _ Hd). apply in_or_app. now left.
Qed.

Lemma roundtrip_dict (ss : list (string * pyval)) :
  Forall (fun kv => Json.roundtrip (snd kv) = Some (snd kv)) ss -> NoDup (map fst ss) ->
  Json.roundtrip (PDict (map pk ss)) = Some (PDict (map pk ss)).
Proof.
  intros Hf Hd.
  assert (Hgo : (fix go (kvs : list (pyval * pyval)) : option (list (string * pyval)) :=
                   match kvs with
                   | [] => Some []
                   | (k, x) :: r => match Json.json_key k, Json.roundtrip x, go r with
                                    | Some k', Some y, Some ys => Some ((k', y) :: ys)
                                    | _, _, _ => None
                                    end
                   end) (map pk ss) = Some ss).
  { clear Hd. induction Hf as [|[k v] r Hv _ IH]; [reflexivity|].
    cbn [map pk fst snd Json.json_key] in *. rewrite Hv, IH. reflexivity. }
  cbn [Json.roundtrip]. rewrite Hgo. cbn [option_map].
  pose proof (build_obj_fresh ss [] Hd) as Hb. cbn [map app] in Hb. now rewrite Hb.
Qed.

Lemma str_dict_pk (kvs : list (pyval * pyval)) :
  str_dict kvs ->
  exists ss, kvs = map pk ss /\ NoDup (map fst ss) /\
             Forall (fun kv => exists v, snd kv = PStr v) ss.
Proof.
  intros [Hf Hd]. induction Hf as [|kv r (k & v & ->) _ IH].
  - exists []. repeat constructor.
  - inversion Hd as [|x l Hn Hd']; subst.
    destruct (IH Hd') as (ss & -> & Hs & Hv).
    exists ((k, PStr v) :: ss). split; [reflexivity|]. split.
    + constructor; [|exact Hs].
      intros Hi. apply Hn. rewrite map_map.
      apply in_map_iff in Hi as ([k' v'] & Heq & Hin). cbn [fst] in Heq. subst k'.
      apply in_map_iff. now exists (k, v').
    + constructor; [now exists v | exact Hv].
Qed.

Lemma roundtrip_mirror (c : MirrorConfig) :
  str_dict (search_params c) -> Json.roundtrip (mirror_to_py c) = Some (mirror_to_py c).
Proof.
  intros Hs. destruct (str_dict_pk _ Hs) as (ss & Hp & Hd & Hv).
  unfold mirror_to_py.
  change (PDict [(PStr "base_url", PStr (base_url c)); (PStr "search_path", PStr (search_path c));
                 (PStr "search_params", PDict (search_params c))])
    with (PDict (map pk [("base_url", PStr (base_url c)); ("search_path", PStr (search_path c));
                         ("search_params", PDict (search_params c))])).
  apply roundtrip_dict.
  - repeat constructor. cbn [snd]. rewrite Hp. apply roundtrip_dict; [|exact Hd].
    eapply Forall_impl; [|exact Hv]. intros [k v] [s' Hs']. cbn [snd] in *. now rewrite Hs'.
  - repeat constructor; cbn; intuition discriminate.
Qed.

Lemma save_config_payload (m : Manager) :
  Forall (fun c => str_dict (search_params c)) (mirrors m) ->
  save_config m = Some (save_payload m).
Proof.
  intros Hf. unfold save_config, save_payload.
  change (PDict [(PStr "mirrors", PList (map mirror_to_py (mirrors m)));
                 (PStr "current_index", PInt (current_index m))])
    with (PDict (map pk [("mirrors", PList (map mirror_to_py (mirrors m)));
                         ("current_index", PInt (current_index m))])).
  apply roundtrip_dict.
  - repeat constructor. cbn [snd]. apply roundtrip_list.
    apply Forall_map. eapply Forall_impl; [|exact Hf]. intros c Hc. now apply roundtrip_mirror.
  - repeat constructor; cbn; intuition discriminate.
Qed.

Lemma load_entry_mirror (c : MirrorConfig) :
  Str.rstrip_slash (base_url c) = base_url c -> load_entry (mirror_to_py c) = Some (Some c).
Proof.
  destruct c as [b p sp]. cbn [base_url]. intros Hb. simpl. now rewrite Hb.
Qed.

Lemma load_entries_mirrors (l : list MirrorConfig) :
  Forall (fun c => Str.rstrip_slash (base_url c) = base_url c) l ->
  load_entries (map mirror_to_py l) = Some l.
Proof.
  induction 1 as [|c r Hc _ IH]; [reflexivity|].
  cbn [map load_entries]. now rewrite load_entry_mirror, IH.
Qed.

Lemma load_config_list (l : list MirrorConfig) (i : Z) :
  l <> [] -> Forall (fun c => Str.rstrip_slash (base_url c) = base_url c) l ->
  load_config (FJson (PDict [(PStr "mirrors", PList (map mirror_to_py l));
                             (PStr "current_index", PInt i)])) =
  Loaded {| mirrors := l; current_index := Z.min i (Z.of_nat (List.length l) - 1) |}.
Proof.
  intros Hn Hf. destruct l as [|c r]; [contradiction|].
  pose proof (load_entries_mirrors (c :: r) Hf) as He.
  unfold load_config. cbn -[load_entries]. cbn -[load_entries] in He.
  rewrite He. reflexivity.
Qed.

(** C7: for a store as the data model describes it ([wf_store]: at least
    one record, [current_index] in range, every [base_url] an origin with
    no trailing slash, every [search_params] a [str -> str] map),
    [_save_config] writes a file that reads back as the saved payload, and
    [_load_config] on it rebuilds the same list of records and the same
    [current_index]; when an external edit kept only the first [k >= 1]
    records, the load gives those records and the index clamped to the
    last of them. *)
Theorem save_load_roundtrip (m : Manager) :
  wf_store m ->
  save_config m = Some (save_payload m) /\
  load_config (FJson (save_payload m)) = Loaded m /\
  (forall k, (1 <= k)%nat ->
     load_config (FJson (shrunk_file k m)) =
     Loaded {| mirrors := firstn k (mirrors m);
               current_index :=
                 Z.min (current_index m) (Z.of_nat (List.length (firstn k (mirrors m))) - 1) |}).
Proof.
  destruct m as [l i]. intros (Hn & Hi & Hf). cbn [mirrors current_index] in *.
  assert (Hb : Forall (fun c => Str.rstrip_slash (base_url c) = base_url c) l)
    by (eapply Forall_impl; [|exact Hf]; now intros c [H _]).
  split; [|split].
  - apply save_config_payload. eapply Forall_impl; [|exact Hf]. now intros c [_ H].
  - unfold save_payload. cbn [mirrors current_index].
    rewrite load_config_list by assumption. now rewrite Z.min_l by lia.
  - intros k Hk. unfold shrunk_file. cbn [mirrors current_index].
    rewrite firstn_map. apply load_config_list.
    + destruct l as [|c r]; [contradiction|]. destruct k as [|k]; [lia|]. discriminate.
    + rewrite <- (firstn_skipn k l) in Hb. now apply Forall_app in Hb as [Hb _].
Qed.

(** The witness: the default store with [bato.si] current. *)
Lemma save_load_roundtrip_witness :
  wf_store {| mirrors := DEFAULT_MIRRORS; current_index := 1%Z |} /\
  load_config (FJson (save_payload {| mirrors := DEFAULT_MIRRORS; current_index := 1%Z |})) =
    Loaded {| mirrors := DEFAULT_MIRRORS; current_index := 1%Z |}.
Proof.
  assert (H : wf_store {| mirrors := DEFAULT_MIRRORS; current_index := 1%Z |}).
  { split; [discriminate|]. split; [cbn; lia|].
    repeat constructor; cbn; try reflexivity;
      first [intros [] | intros Hin; destruct Hin as [Hin|Hin]; discriminate
            | eexists; eexists; reflexivity]. }
  split; [exact H|]. exact (proj1 (proj2 (save_load_roundtrip _ H))).
Defined.

End PersistClaims.

Module InvClaims.
Import Mirror Parse Props.

Lemma skipn_nth_cons {A} (i : nat) (l : list A) (d : A) :
  (i < List.length l)%nat -> skipn i l = nth i l d :: skipn (S i) l.
Proof.
  revert l. induction i as [|i IH]; intros [|x l] H; cbn in *; try lia; [reflexivity|].
  apply IH. lia.
Qed.

Lemma pop_at_perm {A} (i : nat) (l : list A) (d : A) :
  (i < List.length l)%nat -> Permutation l (nth i l d :: pop_at i l).
Proof.
  intros H. unfold pop_at.
  rewrite <- (firstn_skipn i l) at 1. rewrite (skipn_nth_cons i l d H).
  symmetry. apply Permutation_middle.
Qed.

Lemma insert_at_perm {A} (i : nat) (x : A) (l : list A) :
  Permutation (insert_at i x l) (x :: l).
Proof.
  unfold insert_at. rewrite <- Permutation_middle, firstn_skipn. reflexivity.
Qed.

Lemma store_inv_perm (m : Manager) (l : list MirrorConfig) :
  store_inv m -> Permutation (mirrors m) l ->
  store_inv {| mirrors := l; current_index := current_index m |}.
Proof.
  intros (Hf & Hd & Hi) Hp. unfold store_inv. cbn [mirrors current_index]. split; [|split].
  - apply Forall_forall. intros c Hc. rewrite Forall_forall in Hf.
    apply Hf. eapply Permutation_in; [symmetry; exact Hp | exact Hc].
  - eapply Permutation_NoDup; [apply Permutation_map; exact Hp | exact Hd].
  - intros Hn. rewrite <- (Permutation_length Hp). apply Hi.
    intros He. rewrite He in Hp. apply Permutation_nil in Hp. contradiction.
Qed.

Lemma update_existing_some (c : MirrorConfig) (l l' : list MirrorConfig) :
  update_existing c l = Some l' -> map base_url l' = map base_url l.
Proof.
  revert l'. induction l as [|e r IH]; intros l'; [discriminate|].
  cbn [update_existing]. destruct (String.eqb (base_url e) (base_url c)).
  - intros H. injection H as <-. reflexivity.
  - destruct (update_existing c r) as [r'|]; [|discriminate].
    intros H. injection H as <-. cbn [map]. now rewrite (IH r' eq_refl).
Qed.

Lemma update_existing_none (c : MirrorConfig) (l : list MirrorConfig) :
  update_existing c l = None -> ~ In (base_url c) (map base_url l).
Proof.
  induction l as [|e r IH]; [intros _ []|].
  cbn [update_existing map]. destruct (String.eqb (base_url e) (base_url c)) eqn:He;
    [discriminate|].
  destruct (update_existing c r); [discriminate|]. intros _ [Hin|Hin].
  - rewrite Hin, String.eqb_refl in He. discriminate.
  - now apply IH.
Qed.

Lemma parse_search_url_base (url : string) (c : MirrorConfig) :
  parse_search_url url = Some c -> base_url c <> "".
Proof.
  unfold parse_search_url.
  destruct (String.eqb (Str.strip url) ""); [discriminate|].
  destruct (Url.urlparse _) as [[parsed q]|]; [|discriminate].
  destruct (String.eqb (Url.netloc parsed) ""); [discriminate|].
  intros H. injection H as <-. cbn [base_url].
  destruct (Url.scheme parsed); discriminate.
Qed.

Lemma add_mirror_inv (m : Manager) (url : string) :
  live_store m -> live_store (fst (add_mirror_from_url m url)).
Proof.
  intros [Hne Hm]. unfold add_mirror_from_url.
  destruct (parse_search_url url) as [c|] eqn:Hc; [|now split].
  destruct (update_existing c (mirrors m)) as [l|] eqn:Hu; cbn [fst].
  - destruct Hm as (Hf & Hd & Hi). pose proof (update_existing_some _ _ _ Hu) as Hb.
    unfold live_store, store_inv. cbn [mirrors current_index]. split; [|split; [|split]].
    + intros ->. apply Hne. destruct (mirrors m); [reflexivity | discriminate Hb].
    + clear -Hf Hu. revert l Hu. induction Hf as [|e r He Hr IH]; intros l; [discriminate|].
      cbn [update_existing]. destruct (String.eqb (base_url e) (base_url c)).
      * intros H. injection H as <-. constructor; [exact He | exact Hr].
      * destruct (update_existing c r) as [r'|]; [|discriminate].
        intros H. injection H as <-. constructor; [exact He | now apply IH].
    + now rewrite Hb.
    + intros Hn. rewrite <- (length_map base_url l), Hb, length_map. apply Hi.
      intros He. rewrite He in Hb. destruct l; [contradiction | discriminate].
  - destruct Hm as (Hf & Hd & Hi). unfold live_store, store_inv. cbn [mirrors current_index].
    split; [|split; [|split]].
    + now destruct (mirrors m).
    + apply Forall_app. split; [exact Hf|]. constructor; [|constructor].
      exact (parse_search_url_base _ _ Hc).
    + rewrite map_app. cbn [map]. apply NoDup_app; [exact Hd | repeat constructor; intros []|].
      intros x Hx [<-|[]]. exact (update_existing_none _ _ Hu Hx).
    + intros _. rewrite length_app. cbn [List.length].
      specialize (Hi Hne). lia.
Qed.

Lemma remove_mirror_inv (m : Manager) (index : Z) :
  live_store m -> live_store (fst (remove_mirror m index)).
Proof.
  intros [Hne Hm]. unfold remove_mirror.
  destruct (negb ((0 <=? index)%Z && (index <? Z.of_nat (List.length (mirrors m)))%Z)) eqn:Hr;
    [now split|].
  apply negb_false_iff, andb_true_iff in Hr as [H0 H1].
  apply Z.leb_le in H0. apply Z.ltb_lt in H1.
  destruct (Z.of_nat (List.length (mirrors m)) <=? 1)%Z eqn:H2; [now split|].
  apply Z.leb_gt in H2. cbn [fst].
  destruct Hm as (Hf & Hd & Hi). specialize (Hi Hne).
  set (d := mk_default "https://bato.to").
  assert (Hp : Permutation (mirrors m)
                 (nth (Z.to_nat index) (mirrors m) d :: pop_at (Z.to_nat index) (mirrors m)))
    by (apply pop_at_perm; lia).
  assert (Hl : Z.of_nat (List.length (pop_at (Z.to_nat index) (mirrors m))) =
               (Z.of_nat (List.length (mirrors m)) - 1)%Z)
    by (rewrite (Permutation_length Hp); cbn [List.length]; lia).
  unfold live_store, store_inv. cbn [mirrors current_index]. rewrite Hl.
  split; [|split; [|split]].
  - intros He. rewrite He in Hl. cbn in Hl. lia.
  - apply Forall_forall. intros c Hc. rewrite Forall_forall in Hf. apply Hf.
    eapply Permutation_in; [symmetry; exact Hp | now right].
  - apply Permutation_map with (f := base_url) in Hp.
    apply (Permutation_NoDup Hp) in Hd. cbn [map] in Hd. now inversion Hd.
  - intros _.
    destruct (Z.of_nat (List.length (mirrors m)) - 1 <=? current_index m)%Z eqn:H3;
      [apply Z.leb_le in H3 | apply Z.leb_gt in H3]; [lia|].
    destruct (index <? current_index m)%Z eqn:H4;
      [apply Z.ltb_lt in H4 | apply Z.ltb_ge in H4]; lia.
Qed.

Lemma move_mirror_inv (m : Manager) (from_index to_index : Z) :
  live_store m -> live_store (fst (move_mirror m from_index to_index)).
Proof.
  intros [Hne Hm]. unfold move_mirror.
  destruct (negb ((0 <=? from_index)%Z &&
                  (from_index <? Z.of_nat (List.length (mirrors m)))%Z)) eqn:Hr;
    [now split|].
  apply negb_false_iff, andb_true_iff in Hr as [H0 H1].
  apply Z.leb_le in H0. apply Z.ltb_lt in H1.
  destruct (negb ((0 <=? to_index)%Z && (to_index <? Z.of_nat (List.length (mirrors m)))%Z));
    [now split|].
  destruct (from_index =? to_index)%Z; [now split|]. cbn [fst].
  set (x := nth (Z.to_nat from_index) (mirrors m) (mk_default "https://bato.to")).
  assert (Hp : Permutation (mirrors m)
                 (insert_at (Z.to_nat to_index) x (pop_at (Z.to_nat from_index) (mirrors m)))).
  { rewrite insert_at_perm. apply pop_at_perm. lia. }
  split.
  - cbn [mirrors]. intros He. rewrite He in Hp. apply Permutation_sym, Permutation_nil in Hp.
    contradiction.
  - exact (store_inv_perm m _ Hm Hp).
Qed.

Lemma next_mirror_inv (m : Manager) :
  live_store m -> live_store (fst (next_mirror m)).
Proof.
  intros [Hne Hm]. unfold next_mirror.
  destruct (Z.of_nat (List.length (mirrors m)) <=? 1)%Z eqn:H1; [now split|].
  apply Z.leb_gt in H1.
  destruct ((current_index m + 1) mod Z.of_nat (List.length (mirrors m)) =? 0)%Z;
    [now split|].
  destruct Hm as (Hf & Hd & Hi). unfold live_store, store_inv, set_index.
  cbn [fst mirrors current_index].
  split; [exact Hne|]. split; [exact Hf|]. split; [exact Hd|].
  intros _. apply Z.mod_pos_bound. lia.
Qed.

Lemma reset_to_primary_inv (m : Manager) :
  live_store m -> live_store (reset_to_primary m).
Proof.
  intros [Hne Hm]. unfold reset_to_primary.
  destruct (negb (current_index m =? 0)%Z); [|now split].
  destruct Hm as (Hf & Hd & Hi). unfold live_store, store_inv, set_index.
  cbn [mirrors current_index].
  split; [exact Hne|]. split; [exact Hf|]. split; [exact Hd|].
  intros _. destruct (mirrors m) as [|c r]; [contradiction|]. cbn [List.length]. lia.
Qed.

Lemma reset_to_defaults_inv (m : Manager) : live_store (reset_to_defaults m).
Proof.
  unfold live_store, store_inv, reset_to_defaults. cbn [mirrors current_index].
  split; [discriminate|]. split; [|split].
  - repeat constructor; discriminate.
  - repeat constructor; cbn; intuition discriminate.
  - intros _. cbn. lia.
Qed.

Lemma load_entries_nil (l : list pyval) (ls : list MirrorConfig) :
  match load_entries l with Some [] => Some DEFAULT_MIRRORS | r => r end = Some ls ->
  ls <> [].
Proof.
  destruct (load_entries l) as [[|c r]|]; intros H; try discriminate H;
    injection H as <-; discriminate.
Qed.

Lemma load_config_bounds (f : config_file) (m : Manager) :
  load_config f = Loaded m ->
  mirrors m <> [] /\ (current_index m <= Z.of_nat (List.length (mirrors m)) - 1)%Z.
Proof.
  destruct f as [| |data]; cbn [load_config].
  1, 2: intros H; injection H as <-; split; [discriminate | cbn; lia].
  destruct (get data "mirrors" (PList [])) as [ms|]; [|discriminate].
  match goal with |- match ?lo with _ => _ end = _ -> _ =>
    assert (Hne : forall ls, lo = Some ls -> ls <> []);
    [|destruct lo as [ls|]; [specialize (Hne ls eq_refl)|discriminate]] end.
  - destruct ms as [| | | |[|e r]|]; intros ls H; try (injection H as <-; discriminate).
    exact (load_entries_nil _ _ H).
  - destruct (get data "current_index" (PInt 0)) as [ci|]; [|discriminate].
    destruct (as_int ci) as [z|]; [|discriminate].
    intros H. injection H as <-. cbn [mirrors current_index]. split; [exact Hne|].
    destruct ls as [|c r]; [contradiction|]. lia.
Qed.

(** C5 counterexample: [_load_config] on [malformed_file] loads a store
    with an empty [base_url], the origin [https://bato.to] twice and
    [current_index = -1] (the index is only clamped from above), so the
    invariant does not hold after a load. *)
Lemma load_malformed_breaks_invariant :
  match load_config (FJson malformed_file) with
  | Loaded m =>
    current_index m = (-1)%Z /\
    map base_url (mirrors m) = [""; "https://bato.to"; "https://bato.to"] /\
    ~ store_inv m
  | LoadRaised => False
  end.
Proof.
  vm_compute. split; [reflexivity|]. split; [reflexivity|].
  intros (_ & _ & Hi). specialize (Hi ltac:(discriminate)). destruct Hi as [Hi _].
  now apply Hi.
Qed.

(** C5, as the code has it: every mutating operation ([add_mirror_from_url],
    [remove_mirror], [move_mirror], [next_mirror], [reset_to_primary],
    [reset_to_defaults]) keeps the invariant on a store with records
    (non-empty, distinct [base_url]s, index in range); [_load_config]
    always gives a store with records and [current_index <= len - 1] on a
    file whose index is absent or an integer, but checks neither the
    [base_url]s nor a negative index. *)
Theorem store_ops_preserve_invariant :
  (forall m url, live_store m -> live_store (fst (add_mirror_from_url m url))) /\
  (forall m index, live_store m -> live_store (fst (remove_mirror m index))) /\
  (forall m i j, live_store m -> live_store (fst (move_mirror m i j))) /\
  (forall m, live_store m -> live_store (fst (next_mirror m))) /\
  (forall m, live_store m -> live_store (reset_to_primary m)) /\
  (forall m, live_store (reset_to_defaults m)) /\
  (forall f m, int_index f -> load_config f = Loaded m ->
     mirrors m <> [] /\ (current_index m <= Z.of_nat (List.length (mirrors m)) - 1)%Z).
Proof.
  split; [exact add_mirror_inv|]. split; [exact remove_mirror_inv|].
  split; [exact move_mirror_inv|]. split; [exact next_mirror_inv|].
  split; [exact reset_to_primary_inv|]. split; [exact reset_to_defaults_inv|].
  intros f m _. exact (load_config_bounds f m).
Qed.

(** The witness: the default store, then the mirror added from the URL of
    the parser scenario, then [bato.to] removed; and a file with the
    integer index [7]. *)
Lemma store_ops_preserve_invariant_witness :
  live_store {| mirrors := DEFAULT_MIRRORS; current_index := 0%Z |} /\
  live_store (fst (remove_mirror
    (fst (add_mirror_from_url {| mirrors := DEFAULT_MIRRORS; current_index := 0%Z |}
            "bato.ing/v4x-search?type=comic&word=test&page=2")) 0)) /\
  (forall m, load_config (FJson (PDict [(PStr "current_index", PInt 7)])) = Loaded m ->
     mirrors m <> [] /\ (current_index m <= Z.of_nat (List.length (mirrors m)) - 1)%Z).
Proof.
  enough (Hl : forall m, load_config (FJson (PDict [(PStr "current_index", PInt 7)])) = Loaded m ->
            mirrors m <> [] /\ (current_index m <= Z.of_nat (List.length (mirrors m)) - 1)%Z).
  2:{ intros m. apply (proj2 (proj2 (proj2 (proj2 (proj2 (proj2 store_ops_preserve_invariant))))));
      unfold int_index; intros ci Hc; injection Hc as <-; discriminate. }
  assert (H0 : live_store {| mirrors := DEFAULT_MIRRORS; current_index := 0%Z |}).
  { exact ((proj1 (proj2 (proj2 (proj2 (proj2 (proj2 store_ops_preserve_invariant))))))
             {| mirrors := DEFAULT_MIRRORS; current_index := 0%Z |}). }
  split; [exact H0|]. split; [|exact Hl].
  apply (proj1 (proj2 store_ops_preserve_invariant)).
  apply (proj1 store_ops_preserve_invariant). exact H0.
Defined.

End InvClaims.

Module MirrorExtras.
Import Mirror Parse Props.

Lemma dict_set_absent (kvs : list (pyval * pyval)) (k v : pyval) :
  (forall kv, In kv kvs -> py_eq (fst kv) k = false) -> dict_set kvs k v = app kvs [(k, v)].
Proof.
  induction kvs as [|[k' v'] r IH]; intros H; [reflexivity|].
  cbn [dict_set app]. pose proof (H (k', v') (or_introl eq_refl)) as Hk. cbn [fst] in Hk.
  rewrite Hk. f_equal. apply IH. intros kv Hkv. apply H. now right.
Qed.

(** X1: [get_search_url]: when no parameter key of the current mirror equals
    ["word"] or ["page"], the URL is the base URL, the search path, ["?"],
    then the mirror's parameters in their order followed by [word=<word>]
    and [page=<page>], joined by ["&"]; nothing is percent-encoded. *)
Theorem get_search_url_format (m : Manager) (c : MirrorConfig) (word : string) (page : Z) :
  current_mirror m = Some c ->
  (forall kv, In kv (search_params c) ->
     py_eq (fst kv) (PStr "word") = false /\ py_eq (fst kv) (PStr "page") = false) ->
  get_search_url m word page =
  Some (base_url c ++ search_path c ++ "?" ++
        String.concat "&"
          (app (map (fun kv => py_str (fst kv) ++ "=" ++ py_str (snd kv)) (search_params c))
               ["word=" ++ word; "page=" ++ Z_to_string page])).
Proof.
  intros Hc Hk. unfold get_search_url. rewrite Hc.
  rewrite (dict_set_absent (search_params c)) by (intros kv Hkv; apply (Hk kv Hkv)).
  rewrite (dict_set_absent (app (search_params c) [(PStr "word", PStr word)])).
  - rewrite !map_app, <- app_assoc. reflexivity.
  - intros kv Hkv. apply in_app_or in Hkv as [Hkv | [<- | []]].
    + apply (Hk kv Hkv).
    + reflexivity.
Qed.

(** The witness: the primary default mirror, whose only parameter is
    [type=comic]; the space of the query is written as it is. *)
Lemma get_search_url_format_witness :
  get_search_url {| mirrors := DEFAULT_MIRRORS; current_index := 0%Z |} "one piece" 2 =
  Some "https://bato.to/v4x-search?type=comic&word=one piece&page=2".
Proof.
  rewrite (get_search_url_format _ (mk_default "https://bato.to")); [reflexivity | reflexivity |].
  intros kv [<- | []]. split; reflexivity.
Defined.

Lemma filter_eqb_seq (k a n : nat) :
  filter (fun i => Nat.eqb i k) (seq a n) =
  if Nat.leb a k && Nat.ltb k (a + n) then [k] else [].
Proof.
  revert a. induction n as [|n IH]; intros a.
  - cbn [seq filter]. destruct (Nat.leb a k) eqn:H1, (Nat.ltb k (a + 0)) eqn:H2; auto.
    apply Nat.leb_le in H1. apply Nat.ltb_lt in H2. lia.
  - cbn [seq filter]. rewrite IH.
    destruct (Nat.eqb a k) eqn:He;
      [apply Nat.eqb_eq in He | apply Nat.eqb_neq in He];
      destruct (Nat.leb (S a) k) eqn:H1, (Nat.leb a k) eqn:H2, (Nat.ltb k (S a + n)) eqn:H3,
               (Nat.ltb k (a + S n)) eqn:H4;
      try reflexivity;
      repeat match goal with
             | H : Nat.leb _ _ = true |- _ => apply Nat.leb_le in H
             | H : Nat.leb _ _ = false |- _ => apply Nat.leb_gt in H
             | H : Nat.ltb _ _ = true |- _ => apply Nat.ltb_lt in H
             | H : Nat.ltb _ _ = false |- _ => apply Nat.ltb_ge in H
             end; try lia; subst; reflexivity.
Qed.

(** X2: [format_mirror_display]: an index out of range gives [""]; for a store
    whose [current_index] is in range, exactly one of the indices
    [0 .. len - 1] is displayed with the marker ["*"], the current one. *)
Theorem format_mirror_display_marks_current (m : Manager) :
  (0 <= current_index m < Z.of_nat (List.length (mirrors m)))%Z ->
  filter (fun i => String.prefix "*" (format_mirror_display m (Z.of_nat i)))
         (seq 0 (List.length (mirrors m))) = [Z.to_nat (current_index m)] /\
  (forall i, (i < 0 \/ Z.of_nat (List.length (mirrors m)) <= i)%Z ->
     format_mirror_display m i = "").
Proof.
  intros Hi. split.
  - transitivity (filter (fun i => Nat.eqb i (Z.to_nat (current_index m)))
                          (seq 0 (List.length (mirrors m)))).
    2: { rewrite filter_eqb_seq.
         replace (Nat.leb 0 (Z.to_nat (current_index m)) &&
                  Nat.ltb (Z.to_nat (current_index m)) (0 + List.length (mirrors m)))
           with true by (symmetry; apply andb_true_iff;
                         split; [apply Nat.leb_le | apply Nat.ltb_lt]; lia).
         reflexivity. }
    apply filter_ext_in. intros i Hin. apply in_seq in Hin.
    unfold format_mirror_display.
    replace ((0 <=? Z.of_nat i)%Z && (Z.of_nat i <? Z.of_nat (List.length (mirrors m)))%Z)
      with true by (symmetry; apply andb_true_iff; split; [apply Z.leb_le | apply Z.ltb_lt]; lia).
    cbn [negb].
    destruct (Z.of_nat i =? current_index m)%Z eqn:He;
      [apply Z.eqb_eq in He | apply Z.eqb_neq in He].
    + symmetry. apply Nat.eqb_eq. lia.
    + symmetry. apply Nat.eqb_neq. lia.
  - intros i Hr. unfold format_mirror_display.
    replace ((0 <=? i)%Z && (i <? Z.of_nat (List.length (mirrors m)))%Z) with false;
      [reflexivity|].
    symmetry. apply andb_false_iff.
    destruct Hr; [left; apply Z.leb_gt | right; apply Z.ltb_ge]; lia.
Qed.

(** The witness: the default store with [bato.si] current. *)
Lemma format_mirror_display_marks_current_witness :
  filter (fun i => String.prefix "*"
                     (format_mirror_display {| mirrors := DEFAULT_MIRRORS; current_index := 1%Z |}
                                            (Z.of_nat i)))
         (seq 0 3) = [1%nat].
Proof.
  exact (proj1 (format_mirror_display_marks_current
                  {| mirrors := DEFAULT_MIRRORS; current_index := 1%Z |} ltac:(cbn; lia))).
Defined.

Lemma length_insert_at {A} (i : nat) (x : A) (l : list A) :
  (i <= List.length l)%nat -> List.length (insert_at i x l) = S (List.length l).
Proof.
  intros H. unfold insert_at. rewrite length_app. cbn [List.length].
  rewrite length_firstn, length_skipn. lia.
Qed.

Lemma length_pop_at' {A} (i : nat) (l : list A) :
  (i < List.length l)%nat -> S (List.length (pop_at i l)) = List.length l.
Proof.
  intros H. unfold pop_at. rewrite length_app, length_firstn, length_skipn. lia.
Qed.

Lemma nth_insert_at {A} (i : nat) (x d : A) (l : list A) :
  (i <= List.length l)%nat -> nth i (insert_at i x l) d = x.
Proof.
  intros H. unfold insert_at. rewrite app_nth2; rewrite length_firstn; [|lia].
  replace (i - Nat.min i (List.length l))%nat with 0%nat by lia. reflexivity.
Qed.

Lemma pop_at_insert_at {A} (i : nat) (x : A) (l : list A) :
  (i <= List.length l)%nat -> pop_at i (insert_at i x l) = l.
Proof.
  intros H. unfold pop_at, insert_at.
  rewrite firstn_app, length_firstn, skipn_app, length_firstn.
  replace (i - Nat.min i (List.length l))%nat with 0%nat by lia.
  replace (S i - Nat.min i (List.length l))%nat with 1%nat by lia.
  rewrite firstn_firstn, Nat.min_id, firstn_O, app_nil_r.
  rewrite skipn_all2 by (rewrite length_firstn; lia).
  cbn [skipn app]. apply firstn_skipn.
Qed.

Lemma insert_at_pop_at {A} (i : nat) (l : list A) (d : A) :
  (i < List.length l)%nat -> insert_at i (nth i l d) (pop_at i l) = l.
Proof.
  intros H. unfold insert_at, pop_at.
  rewrite firstn_app, length_firstn, skipn_app, length_firstn.
  replace (i - Nat.min i (List.length l))%nat with 0%nat by lia.
  rewrite firstn_firstn, Nat.min_id, firstn_O, skipn_O, app_nil_r.
  rewrite skipn_all2 by (rewrite length_firstn; lia). cbn [app].
  rewrite <- (InvClaims.skipn_nth_cons i l d H). apply firstn_skipn.
Qed.

(** X3: [move_mirror] with two indices in range succeeds, and moving the mirror
    back from [to_index] to [from_index] restores the store: the mirror
    list and [current_index] are the ones before both moves. *)
Theorem move_mirror_roundtrip (m : Manager) (i j : Z) :
  (0 <= i < Z.of_nat (List.length (mirrors m)))%Z ->
  (0 <= j < Z.of_nat (List.length (mirrors m)))%Z ->
  snd (move_mirror m i j) = true /\ fst (move_mirror (fst (move_mirror m i j)) j i) = m.
Proof.
  intros Hi Hj. destruct m as [l c]. cbn [mirrors] in *.
  unfold move_mirror. cbn [mirrors current_index].
  replace ((0 <=? i)%Z && (i <? Z.of_nat (List.length l))%Z) with true
    by (symmetry; apply andb_true_iff; split; [apply Z.leb_le | apply Z.ltb_lt]; lia).
  replace ((0 <=? j)%Z && (j <? Z.of_nat (List.length l))%Z) with true
    by (symmetry; apply andb_true_iff; split; [apply Z.leb_le | apply Z.ltb_lt]; lia).
  cbn [negb].
  destruct (i =? j)%Z eqn:Hij.
  - cbn [fst snd mirrors current_index].
    replace ((0 <=? j)%Z && (j <? Z.of_nat (List.length l))%Z) with true
      by (symmetry; apply andb_true_iff; split; [apply Z.leb_le | apply Z.ltb_lt]; lia).
    replace ((0 <=? i)%Z && (i <? Z.of_nat (List.length l))%Z) with true
      by (symmetry; apply andb_true_iff; split; [apply Z.leb_le | apply Z.ltb_lt]; lia).
    apply Z.eqb_eq in Hij. subst. rewrite Z.eqb_refl. split; reflexivity.
  - cbn [fst snd mirrors current_index]. split; [reflexivity|].
    set (d := mk_default "https://bato.to").
    set (x := nth (Z.to_nat i) l d).
    assert (Hl : List.length (insert_at (Z.to_nat j) x (pop_at (Z.to_nat i) l)) = List.length l).
    { rewrite length_insert_at; [apply length_pop_at'; lia|].
      pose proof (length_pop_at' (Z.to_nat i) l ltac:(lia)). lia. }
    rewrite Hl.
    replace ((0 <=? j)%Z && (j <? Z.of_nat (List.length l))%Z) with true
      by (symmetry; apply andb_true_iff; split; [apply Z.leb_le | apply Z.ltb_lt]; lia).
    replace ((0 <=? i)%Z && (i <? Z.of_nat (List.length l))%Z) with true
      by (symmetry; apply andb_true_iff; split; [apply Z.leb_le | apply Z.ltb_lt]; lia).
    cbn [negb]. rewrite Z.eqb_sym, Hij. cbn [fst].
    pose proof (length_pop_at' (Z.to_nat i) l ltac:(lia)) as Hp.
    rewrite nth_insert_at by lia. rewrite pop_at_insert_at by lia.
    subst x. rewrite insert_at_pop_at by lia. reflexivity.
Qed.

(** The witness: [bato.to] moved to the end of the default store and back. *)
Lemma move_mirror_roundtrip_witness :
  snd (move_mirror {| mirrors := DEFAULT_MIRRORS; current_index := 1%Z |} 0 2) = true /\
  fst (move_mirror (fst (move_mirror {| mirrors := DEFAULT_MIRRORS; current_index := 1%Z |} 0 2)) 2 0) =
  {| mirrors := DEFAULT_MIRRORS; current_index := 1%Z |}.
Proof. apply move_mirror_roundtrip; cbn; lia. Defined.

End MirrorExtras.

Module AddExtras.
Import Mirror Parse Props.

(** *** Strings *)

Lemma list_ascii_of_string_app (x y : string) :
  list_ascii_of_string (x ++ y) = app (list_ascii_of_string x) (list_ascii_of_string y).
Proof. induction x as [|c x IH]; cbn; [reflexivity | now rewrite IH]. Qed.

Lemma string_app_assoc (x y z : string) : x ++ (y ++ z) = (x ++ y) ++ z.
Proof. induction x as [|c x IH]; cbn; [reflexivity | now rewrite IH]. Qed.

Lemma rev_string_involutive (s : string) : Str.rev_string (Str.rev_string s) = s.
Proof.
  unfold Str.rev_string. rewrite list_ascii_of_string_of_list_ascii, rev_involutive.
  apply string_of_list_ascii_of_string.
Qed.

Lemma lstrip_by_idem (p : ascii -> bool) (s : string) :
  Str.lstrip_by p (Str.lstrip_by p s) = Str.lstrip_by p s.
Proof.
  induction s as [|c s IH]; [reflexivity|]. cbn [Str.lstrip_by].
  destruct (p c) eqn:Hp; [exact IH|]. cbn [Str.lstrip_by]. now rewrite Hp.
Qed.

(** [s.rstrip("/")] is idempotent. *)
Lemma rstrip_slash_idem (s : string) : Str.rstrip_slash (Str.rstrip_slash s) = Str.rstrip_slash s.
Proof.
  unfold Str.rstrip_slash, Str.rstrip_by. rewrite rev_string_involutive, lstrip_by_idem.
  reflexivity.
Qed.

Lemma find_none_notin (c : ascii) (s : string) :
  Str.find c s = None -> forall d, In d (list_ascii_of_string s) -> Ascii.eqb c d = false.
Proof.
  induction s as [|d0 s IH]; cbn; [intros _ d []|].
  destruct (Ascii.eqb c d0) eqn:He; [discriminate|].
  destruct (Str.find c s); [discriminate|]. intros _ d [<- | Hd]; auto.
Qed.

(** A string whose last character is not ["/"] is unchanged by
    [rstrip("/")]. *)
Lemma rstrip_slash_keep (x t : string) :
  t <> "" -> Str.find "/" t = None -> Str.rstrip_slash (x ++ t) = x ++ t.
Proof.
  intros Ht Hf. pose proof (find_none_notin _ _ Hf) as Hn.
  destruct (exists_last (l := list_ascii_of_string t)) as (l & c & Hl).
  { destruct t; [contradiction | discriminate]. }
  assert (Hc : Ascii.eqb c "/" = false).
  { rewrite Ascii.eqb_sym. apply Hn. rewrite Hl. apply in_or_app. right. now left. }
  unfold Str.rstrip_slash, Str.rstrip_by, Str.rev_string.
  rewrite list_ascii_of_string_app, Hl, app_assoc, rev_app_distr. cbn [rev app].
  cbn [string_of_list_ascii Str.lstrip_by]. rewrite Hc.
  rewrite <- (string_of_list_ascii_of_string (x ++ t)).
  rewrite list_ascii_of_string_app, Hl, app_assoc.
  f_equal. cbn [list_ascii_of_string]. rewrite list_ascii_of_string_of_list_ascii.
  cbn [rev]. now rewrite rev_involutive.
Qed.

Lemma find_substring_none (c : ascii) (s : string) (d : nat) :
  (forall j, Str.find c s = Some j -> (d <= j)%nat) -> Str.find c (substring 0 d s) = None.
Proof.
  revert d. induction s as [|e s IH]; intros d H; [destruct d; reflexivity|].
  destruct d as [|d]; [reflexivity|]. cbn [substring Str.find] in *.
  destruct (Ascii.eqb c e); [specialize (H 0%nat eq_refl); lia|].
  rewrite IH; [reflexivity|]. intros j Hj. rewrite Hj in H. specialize (H (S j) eq_refl). lia.
Qed.

Lemma min_opt_le (a b : option nat) (d : nat) :
  Url.min_opt a b = Some d -> forall j, a = Some j -> (d <= j)%nat.
Proof.
  intros H j ->. destruct b; cbn in H; injection H as <-; lia.
Qed.

Lemma splitnetloc_netloc (rest : string) : Str.find "/" (fst (Url.splitnetloc rest)) = None.
Proof.
  unfold Url.splitnetloc. set (body := substring 2 (String.length rest) rest).
  destruct (Url.min_opt (Str.find "/" body) _) as [d|] eqn:Hd; cbn [fst].
  - apply find_substring_none. intros j Hj. exact (min_opt_le _ _ _ Hd j Hj).
  - destruct (Str.find "/" body); [|reflexivity].
    destruct (Url.min_opt (Str.find "?" body) _); discriminate.
Qed.

(** The network location [urlsplit] returns holds no ["/"]. *)
Lemma urlsplit_netloc (u : string) (r : Url.split_result) :
  Url.urlsplit u = Some r -> Str.find "/" (Url.netloc r) = None.
Proof.
  unfold Url.urlsplit. cbv zeta.
  match goal with |- context [let '(_, _) := ?X in _] => destruct X as [sch rest] end.
  assert (Hnet : Str.find "/"
            (fst (if String.prefix "//" rest then Url.splitnetloc rest else (EmptyString, rest))) = None).
  { destruct (String.prefix "//" rest); [apply splitnetloc_netloc | reflexivity]. }
  destruct (if String.prefix "//" rest then Url.splitnetloc rest else (EmptyString, rest))
    as [net rest']. cbn [fst] in Hnet.
  destruct (_ || _); [discriminate|].
  destruct (if Str.has "#" rest' then _ else _) as [r1 f].
  destruct (if Str.has "?" r1 then _ else _) as [p q].
  intros H. injection H as <-. exact Hnet.
Qed.

Lemma urlparse_netloc (u : string) (r : Url.split_result) (ps : string) :
  Url.urlparse u = Some (r, ps) -> Str.find "/" (Url.netloc r) = None.
Proof.
  unfold Url.urlparse. destruct (Url.urlsplit u) as [r0|] eqn:Hs; [|discriminate].
  pose proof (urlsplit_netloc _ _ Hs) as Hn.
  destruct (_ && _).
  - destruct (Url.splitparams (Url.path r0)). intros H. injection H as <- _. exact Hn.
  - intros H. injection H as <- _. exact Hn.
Qed.

(** *** The parameters of a parsed URL *)

Lemma dict_set_str (acc : list (pyval * pyval)) (k v : string) :
  str_dict acc -> str_dict (dict_set acc (PStr k) (PStr v)).
Proof.
  induction acc as [|[a b] r IH]; intros [Hf Hd].
  - split; repeat constructor; [now exists k, v | intros []].
  - inversion Hf as [|x l (a' & b' & Hab) Hr]; subst. injection Hab as -> ->.
    inversion Hd as [|x l Hn Hd']; subst.
    cbn [dict_set]. rewrite PersistClaims.py_eq_str.
    destruct (String.eqb a' k) eqn:He.
    + split; [constructor; [now exists a', v | exact Hr] | exact Hd].
    + destruct (IH (conj Hr Hd')) as [Hf' Hd''].
      split; [constructor; [now exists a', b' | exact Hf']|].
      cbn [map fst]. constructor; [|exact Hd''].
      intros Hin. destruct (UrlClaims.dict_set_keys _ _ _ _ Hin) as [H1 | H1].
      * exact (Hn H1).
      * injection H1 as H1. subst. rewrite String.eqb_refl in He. discriminate.
Qed.

Lemma collect_params_str (qp : list (string * list string)) :
  forall acc, str_dict acc -> str_dict (collect_params acc qp).
Proof.
  induction qp as [|[key values] qp IH]; intros acc Ha; [exact Ha|].
  cbn [collect_params]. apply IH.
  destruct (keep_param key values); [apply dict_set_str|]; exact Ha.
Qed.

(** What [parse_search_url] returns is a well-formed record. *)
Lemma parse_search_url_wf (url : string) (c : MirrorConfig) :
  parse_search_url url = Some c ->
  Str.rstrip_slash (base_url c) = base_url c /\ str_dict (search_params c).
Proof.
  unfold parse_search_url.
  destruct (String.eqb (Str.strip url) ""); [discriminate|].
  destruct (Url.urlparse _) as [[parsed q]|] eqn:Hp; [|discriminate].
  destruct (String.eqb (Url.netloc parsed) "") eqn:Hn; [discriminate|].
  intros H. injection H as <-. cbn [base_url search_params]. split.
  - rewrite (string_app_assoc _ "://" (Url.netloc parsed)). apply rstrip_slash_keep.
    + intros He. rewrite He in Hn. discriminate.
    + exact (urlparse_netloc _ _ _ Hp).
  - apply collect_params_str. split; constructor.
Qed.

Lemma update_existing_in (c : MirrorConfig) (l l' : list MirrorConfig) :
  update_existing c l = Some l' -> In c l'.
Proof.
  revert l'. induction l as [|e r IH]; intros l'; [discriminate|]. cbn [update_existing].
  destruct (String.eqb (base_url e) (base_url c)) eqn:He.
  - apply String.eqb_eq in He. intros H. injection H as <-. left.
    destruct c. cbn in *. now rewrite He.
  - destruct (update_existing c r) as [r'|]; [|discriminate].
    intros H. injection H as <-. right. now apply IH.
Qed.

Lemma update_existing_fixed (c : MirrorConfig) (l l' : list MirrorConfig) :
  update_existing c l = Some l' -> update_existing c l' = Some l'.
Proof.
  revert l'. induction l as [|e r IH]; intros l'; [discriminate|]. cbn [update_existing].
  destruct (String.eqb (base_url e) (base_url c)) eqn:He.
  - intros H. injection H as <-. cbn [update_existing base_url]. now rewrite He.
  - destruct (update_existing c r) as [r'|] eqn:Hr; [|discriminate].
    intros H. injection H as <-. cbn [update_existing]. rewrite He.
    now rewrite (IH r' eq_refl).
Qed.

Lemma update_existing_appended (c : MirrorConfig) (l : list MirrorConfig) :
  update_existing c l = None -> update_existing c (app l [c]) = Some (app l [c]).
Proof.
  induction l as [|e r IH]; cbn [update_existing app].
  - intros _. rewrite String.eqb_refl. now destruct c.
  - destruct (String.eqb (base_url e) (base_url c)); [discriminate|].
    destruct (update_existing c r); [discriminate|]. intros _. now rewrite IH.
Qed.

Lemma update_existing_wf (c : MirrorConfig) (l l' : list MirrorConfig) :
  str_dict (search_params c) ->
  Forall (fun c => Str.rstrip_slash (base_url c) = base_url c /\ str_dict (search_params c)) l ->
  update_existing c l = Some l' ->
  Forall (fun c => Str.rstrip_slash (base_url c) = base_url c /\ str_dict (search_params c)) l'.
Proof.
  intros Hc. revert l'. induction l as [|e r IH]; intros l' Hf; [discriminate|].
  inversion Hf as [|x y [He1 He2] Hr]; subst. cbn [update_existing].
  destruct (String.eqb (base_url e) (base_url c)).
  - intros H. injection H as <-. constructor; [|exact Hr]. now split.
  - destruct (update_existing c r) as [r'|]; [|discriminate].
    intros H. injection H as <-. constructor; [now split | now apply IH].
Qed.

(** A store in the data model survives [_save_config] then [_load_config]. *)
Lemma wf_store_persist (m : Manager) :
  wf_store m -> save_config m = Some (save_payload m) /\ load_config (FJson (save_payload m)) = Loaded m.
Proof.
  destruct m as [l i]. intros (Hn & Hi & Hf). cbn [mirrors current_index] in *. split.
  - apply PersistClaims.save_config_payload. eapply Forall_impl; [|exact Hf]. now intros c [_ H].
  - unfold save_payload. cbn [mirrors current_index].
    rewrite PersistClaims.load_config_list; [now rewrite Z.min_l by lia | exact Hn |].
    eapply Forall_impl; [|exact Hf]. now intros c [H _].
Qed.

Lemma defaults_wf (i : Z) :
  (0 <= i < 3)%Z -> wf_store {| mirrors := DEFAULT_MIRRORS; current_index := i |}.
Proof.
  intros Hi. split; [discriminate|]. split; [cbn; lia|].
  repeat constructor; cbn; try reflexivity;
    first [intros [] | intros Hin; destruct Hin as [Hin|Hin]; discriminate
          | eexists; eexists; reflexivity].
Qed.

(** *** [add_mirror_from_url] *)

(** X4: a URL that parses to the record [c] either appends [c] (no mirror
    has its [base_url]) or updates the mirror with its [base_url] in place;
    the current index never changes and the call reports success. *)
Theorem add_mirror_from_url_effect (m : Manager) (url : string) (c : MirrorConfig) :
  parse_search_url url = Some c ->
  fst (snd (add_mirror_from_url m url)) = true /\
  current_index (fst (add_mirror_from_url m url)) = current_index m /\
  ((~ In (base_url c) (map base_url (mirrors m)) /\
    mirrors (fst (add_mirror_from_url m url)) = app (mirrors m) [c]) \/
   (In (base_url c) (map base_url (mirrors m)) /\
    map base_url (mirrors (fst (add_mirror_from_url m url))) = map base_url (mirrors m) /\
    In c (mirrors (fst (add_mirror_from_url m url))))).
Proof.
  intros Hc. unfold add_mirror_from_url. rewrite Hc.
  destruct (update_existing c (mirrors m)) as [l|] eqn:Hu; cbn [fst snd mirrors current_index].
  - pose proof (InvClaims.update_existing_some _ _ _ Hu) as Hb.
    pose proof (update_existing_in _ _ _ Hu) as Hin.
    split; [reflexivity|]. split; [reflexivity|]. right. split; [|split; [exact Hb | exact Hin]].
    rewrite <- Hb. now apply in_map.
  - split; [reflexivity|]. split; [reflexivity|]. left.
    split; [exact (InvClaims.update_existing_none _ _ Hu) | reflexivity].
Qed.

(** The witness: pasting a [bato.si] search URL into the default store
    updates [bato.si] in place. *)
Lemma add_mirror_from_url_effect_witness :
  let m := {| mirrors := DEFAULT_MIRRORS; current_index := 0%Z |} in
  let url := "bato.si/v4x-search?type=comic&word=x" in
  parse_search_url url = Some (mk_default "https://bato.si") /\
  fst (snd (add_mirror_from_url m url)) = true /\
  current_index (fst (add_mirror_from_url m url)) = current_index m /\
  ((~ In "https://bato.si" (map base_url (mirrors m)) /\
    mirrors (fst (add_mirror_from_url m url)) = app (mirrors m) [mk_default "https://bato.si"]) \/
   (In "https://bato.si" (map base_url (mirrors m)) /\
    map base_url (mirrors (fst (add_mirror_from_url m url))) = map base_url (mirrors m) /\
    In (mk_default "https://bato.si") (mirrors (fst (add_mirror_from_url m url))))).
Proof.
  cbv zeta. split; [vm_compute; reflexivity|].
  apply (add_mirror_from_url_effect _ _ (mk_default "https://bato.si")). vm_compute; reflexivity.
Defined.

(** X5: adding the same URL twice leaves the store as the first call left
    it. *)
Theorem add_mirror_from_url_idempotent (m : Manager) (url : string) :
  fst (add_mirror_from_url (fst (add_mirror_from_url m url)) url) = fst (add_mirror_from_url m url).
Proof.
  unfold add_mirror_from_url.
  destruct (parse_search_url url) as [c|] eqn:Hc; cbn [fst]; [|reflexivity].
  destruct (update_existing c (mirrors m)) as [l|] eqn:Hu; cbn [fst mirrors current_index].
  - cbn [mirrors]. now rewrite (update_existing_fixed _ _ _ Hu).
  - cbn [mirrors]. now rewrite (update_existing_appended _ _ Hu).
Qed.

(** X6: [add_mirror_from_url] keeps a store in the data model (records with
    no trailing slash and [str -> str] parameters, index in range), and the
    store it leaves is saved and loaded back unchanged. *)
Theorem add_mirror_from_url_persists (m : Manager) (url : string) :
  wf_store m ->
  wf_store (fst (add_mirror_from_url m url)) /\
  save_config (fst (add_mirror_from_url m url)) = Some (save_payload (fst (add_mirror_from_url m url))) /\
  load_config (FJson (save_payload (fst (add_mirror_from_url m url)))) = Loaded (fst (add_mirror_from_url m url)).
Proof.
  intros Hw. enough (H : wf_store (fst (add_mirror_from_url m url))).
  { split; [exact H | exact (wf_store_persist _ H)]. }
  destruct Hw as (Hn & Hi & Hf). unfold add_mirror_from_url.
  destruct (parse_search_url url) as [c|] eqn:Hc; [|exact (conj Hn (conj Hi Hf))].
  destruct (parse_search_url_wf _ _ Hc) as [Hc1 Hc2].
  destruct (update_existing c (mirrors m)) as [l|] eqn:Hu; cbn [fst].
  - pose proof (f_equal (@List.length string) (InvClaims.update_existing_some _ _ _ Hu)) as Hl.
    rewrite !length_map in Hl.
    split; [|split]; cbn [mirrors current_index].
    + destruct l; [|discriminate]. cbn in Hl. destruct (mirrors m); [contradiction | discriminate].
    + now rewrite Hl.
    + exact (update_existing_wf _ _ _ Hc2 Hf Hu).
  - split; [|split]; cbn [mirrors current_index].
    + now destruct (mirrors m).
    + rewrite length_app. cbn [List.length]. lia.
    + apply Forall_app. split; [exact Hf|]. constructor; [now split | constructor].
Qed.

(** The witness: the default store, with a new mirror added. *)
Lemma add_mirror_from_url_persists_witness :
  let m := {| mirrors := DEFAULT_MIRRORS; current_index := 2%Z |} in
  let url := "https://example.org/search/?type=comic&lang=en&word=x" in
  wf_store m /\
  List.length (mirrors (fst (add_mirror_from_url m url))) = 4%nat /\
  load_config (FJson (save_payload (fst (add_mirror_from_url m url)))) = Loaded (fst (add_mirror_from_url m url)).
Proof.
  cbv zeta. assert (H : wf_store {| mirrors := DEFAULT_MIRRORS; current_index := 2%Z |})
    by (apply defaults_wf; lia).
  split; [exact H|]. split; [vm_compute; reflexivity|].
  exact (proj2 (proj2 (add_mirror_from_url_persists _ _ H))).
Defined.

End AddExtras.

Module LoadExtras.
Import Mirror Parse Props.

Lemma defaults_slash_free : slash_free DEFAULT_MIRRORS.
Proof. repeat constructor. Qed.

Lemma load_entry_slash_free (e : pyval) (c : MirrorConfig) :
  load_entry e = Some (Some c) -> Str.rstrip_slash (base_url c) = base_url c.
Proof.
  destruct e as [| | | s | l | kvs]; cbn [load_entry]; try discriminate.
  - intros H. injection H as <-. apply AddExtras.rstrip_slash_idem.
  - destruct (existsb _ kvs); [|discriminate].
    destruct (get (PDict kvs) "base_url" (PStr "")) as [b|]; [|discriminate].
    destruct (get (PDict kvs) "search_path" (PStr "/v4x-search")) as [p|]; [|discriminate].
    destruct (get (PDict kvs) "search_params" (PDict [])) as [sp|]; [|discriminate].
    destruct (py_dict sp); [|discriminate].
    intros H. injection H as <-. apply AddExtras.rstrip_slash_idem.
Qed.

Lemma load_entries_slash_free (l : list pyval) (ls : list MirrorConfig) :
  load_entries l = Some ls -> slash_free ls.
Proof.
  revert ls. induction l as [|e r IH]; intros ls; cbn [load_entries].
  - intros H. injection H as <-. constructor.
  - destruct (load_entry e) as [[c|]|] eqn:He; [| |discriminate];
      destruct (load_entries r) as [cs|]; try discriminate;
      intros H; injection H as <-.
    + constructor; [exact (load_entry_slash_free _ _ He) | exact (IH _ eq_refl)].
    + exact (IH _ eq_refl).
Qed.

(** X7: no mirror that [_load_config] loads has a [base_url] ending in
    ["/"]: every one is its own [rstrip("/")], whatever the file holds. *)
Theorem load_config_no_trailing_slash (f : config_file) (m : Manager) :
  load_config f = Loaded m ->
  Forall (fun c => Str.rstrip_slash (base_url c) = base_url c) (mirrors m).
Proof.
  destruct f as [| |data]; cbn [load_config].
  1, 2: intros H; injection H as <-; exact defaults_slash_free.
  destruct (get data "mirrors" (PList [])) as [ms|]; [|discriminate].
  match goal with |- match ?lo with _ => _ end = _ -> _ =>
    assert (Hsf : forall ls, lo = Some ls -> slash_free ls);
    [|destruct lo as [ls|]; [specialize (Hsf ls eq_refl)|discriminate]] end.
  - destruct ms as [| | | |[|e r]|]; intros ls H;
      try (injection H as <-; exact defaults_slash_free).
    destruct (load_entries (e :: r)) as [[|c cs]|] eqn:Hl; [| |discriminate]; injection H as <-;
      [exact defaults_slash_free | exact (load_entries_slash_free _ _ Hl)].
  - destruct (get data "current_index" (PInt 0)) as [ci|]; [|discriminate].
    destruct (as_int ci) as [z|]; [|discriminate].
    intros H. injection H as <-. exact Hsf.
Qed.

(** The witness: the file of [malformed_file] loads three mirrors, none
    with a trailing slash. *)
Lemma load_config_no_trailing_slash_witness :
  exists m, load_config (FJson malformed_file) = Loaded m /\
  Forall (fun c => Str.rstrip_slash (base_url c) = base_url c) (mirrors m).
Proof.
  eexists. split; [vm_compute; reflexivity|].
  apply (load_config_no_trailing_slash (FJson malformed_file)). vm_compute. reflexivity.
Defined.

(** X8: a file in the legacy format, a non-empty list of URL strings and
    no ["current_index"], loads one mirror per string, in order, each
    with its trailing slashes removed, the path ["/v4x-search"] and the
    parameters [{"type": "comic"}]; the index is 0. *)
Theorem load_config_legacy_strings (us : list string) :
  us <> [] ->
  load_config (FJson (PDict [(PStr "mirrors", PList (map PStr us))])) =
  Loaded {| mirrors := map legacy_mirror us; current_index := 0 |}.
Proof.
  intros Hus.
  assert (He : forall l, load_entries (map PStr l) = Some (map legacy_mirror l)).
  { induction l as [|u r IH]; [reflexivity|]. cbn [map load_entries load_entry].
    now rewrite IH. }
  destruct us as [|u r]; [contradiction|].
  unfold load_config. cbn -[load_entries map]. rewrite He. cbn -[load_entries map].
  cbn [map List.length]. rewrite Z.min_l; [reflexivity | lia].
Qed.

(** The witness: the legacy file with two URLs. *)
Lemma load_config_legacy_strings_witness :
  load_config (FJson (PDict [(PStr "mirrors", PList (map PStr ["https://bato.to/"; "https://bato.si"]))])) =
  Loaded {| mirrors := [mk_default "https://bato.to"; mk_default "https://bato.si"]; current_index := 0 |}.
Proof.
  rewrite load_config_legacy_strings by discriminate. vm_compute. reflexivity.
Defined.

(** X9: when the ["mirrors"] value is not a non-empty list, or when every
    entry of it is skipped, [_load_config] falls back to [DEFAULT_MIRRORS],
    with the stored index clamped to at most 2. *)
Theorem load_config_defaults (data ms : pyval) (z : Z) :
  get data "mirrors" (PList []) = Some ms ->
  (forall l, ms = PList l -> Forall skipped_entry l) ->
  get data "current_index" (PInt 0) = Some (PInt z) ->
  load_config (FJson data) = Loaded {| mirrors := DEFAULT_MIRRORS; current_index := Z.min z 2 |}.
Proof.
  intros Hm Hs Hc.
  assert (Hn : forall l, Forall skipped_entry l -> load_entries l = Some []).
  { induction 1 as [|e r He _ IH]; [reflexivity|]. cbn [load_entries]. rewrite IH.
    destruct e; cbn in He |- *; try contradiction; try reflexivity. now rewrite He. }
  unfold load_config. rewrite Hm.
  replace (match ms with
           | PList ((_ :: _) as l) => match load_entries l with Some [] => Some DEFAULT_MIRRORS | r => r end
           | _ => Some DEFAULT_MIRRORS end) with (Some DEFAULT_MIRRORS).
  - rewrite Hc. reflexivity.
  - destruct ms as [| | | |[|e r]|]; try reflexivity.
    now rewrite (Hn _ (Hs _ eq_refl)).
Qed.

(** The witness: a ["mirrors"] list of a number and a dict with no
    ["base_url"], and the index 7. *)
Lemma load_config_defaults_witness :
  load_config (FJson (PDict [(PStr "mirrors", PList [PInt 3; PDict [(PStr "url", PStr "x")]]);
                             (PStr "current_index", PInt 7)])) =
  Loaded {| mirrors := DEFAULT_MIRRORS; current_index := 2 |}.
Proof.
  apply (load_config_defaults _ (PList [PInt 3; PDict [(PStr "url", PStr "x")]]) 7);
    [reflexivity | | reflexivity].
  intros l H. injection H as <-. repeat constructor.
Defined.

(** X10: [_load_config] lets the exception escape (only
    [json.JSONDecodeError] and [OSError] are caught) when the JSON value
    is not an object, and when ["current_index"] is [null], a string, a
    list or an object ([min] raises [TypeError]). *)
Theorem load_config_raises (data : pyval) :
  ((forall kvs, data <> PDict kvs) -> load_config (FJson data) = LoadRaised) /\
  (forall ci, get data "current_index" (PInt 0) = Some ci ->
     (ci = PNone \/ (exists s, ci = PStr s) \/ (exists l, ci = PList l) \/
      (exists kvs, ci = PDict kvs)) ->
     load_config (FJson data) = LoadRaised).
Proof.
  split.
  - intros Hd. destruct data; try reflexivity. exfalso. exact (Hd _ eq_refl).
  - intros ci Hc Hk.
    assert (Hi : as_int ci = None)
      by (destruct Hk as [->|[[s ->]|[[l ->]|[kvs ->]]]]; reflexivity).
    unfold load_config.
    destruct (get data "mirrors" (PList [])) as [ms|]; [|reflexivity].
    destruct (match ms with PList ((_ :: _) as l) => _ | _ => _ end) as [ls|]; [|reflexivity].
    now rewrite Hc, Hi.
Qed.

(** The witness: a file holding a JSON list, and a file whose
    ["current_index"] is the string ["1"]. *)
Lemma load_config_raises_witness :
  load_config (FJson (PList [PStr "https://bato.to"])) = LoadRaised /\
  load_config (FJson (PDict [(PStr "current_index", PStr "1")])) = LoadRaised.
Proof.
  split.
  - apply (proj1 (load_config_raises (PList [PStr "https://bato.to"]))). discriminate.
  - apply (proj2 (load_config_raises (PDict [(PStr "current_index", PStr "1")])) (PStr "1")).
    + reflexivity.
    + right. left. exists "1". reflexivity.
Defined.

End LoadExtras.

Module ServiceExtras.
Import Mirror Props Fallback Service.

Section Loop.
Context {Net A : Type}.
Variable work : string -> Net -> Net * outcome A.

Lemma fb_loop_some_last (f : nat) :
  forall tried e m n, snd (fb_loop work f tried (Some e) m n) <> FbAllFailed.
Proof.
  induction f as [|f IH]; intros tried e m n; [discriminate|].
  cbn [fb_loop]. destruct (current_base_url m) as [cur|]; [|discriminate].
  destruct (existsb (String.eqb cur) tried); [discriminate|].
  destruct (work cur n) as [n1 [a|e1|]]; try discriminate.
  destruct (next_mirror m) as [m1 [x|]]; [apply IH | discriminate].
Qed.

Lemma reset_to_primary_index (m : Manager) :
  mirrors (reset_to_primary m) = mirrors m /\ current_index (reset_to_primary m) = 0%Z.
Proof.
  unfold reset_to_primary. destruct (current_index m =? 0)%Z eqn:H; cbn; [|now split].
  split; [reflexivity|]. now apply Z.eqb_eq.
Qed.

Lemma fb_loop_raise (f : nat) :
  forall tried last m n m' n' t e,
  fb_loop work f tried last m n = (m', n', t, FbRaise e) ->
  mirrors m' = mirrors m /\ current_index m' = 0%Z.
Proof.
  induction f as [|f IH]; intros tried last m n m' n' t e H.
  - cbn in H. destruct last; [|discriminate]. injection H as <- _ _ _.
    apply reset_to_primary_index.
  - cbn [fb_loop] in H. destruct (current_base_url m) as [cur|]; [|discriminate].
    destruct (existsb (String.eqb cur) tried).
    + unfold exhausted in H. destruct last; [|discriminate]. injection H as <- _ _ _.
      apply reset_to_primary_index.
    + destruct (work cur n) as [n1 [a|e1|]]; try discriminate.
      destruct (next_mirror m) as [m1 [x|]] eqn:Hn;
        pose proof (FallbackClaims.next_mirror_mirrors _ _ _ Hn) as Hm.
      * destruct (IH _ _ _ _ _ _ _ _ H) as [H1 H2]. split; [congruence | exact H2].
      * unfold exhausted in H. injection H as <- _ _ _.
        destruct (reset_to_primary_index m1) as [H1 H2]. split; [congruence | exact H2].
Qed.

Lemma py_index_in {B} (l : list B) (i : Z) (x : B) : py_index l i = Some x -> In x l.
Proof.
  unfold py_index. destruct (_ && _); [apply nth_error_In|].
  destruct (_ && _); [apply nth_error_In | discriminate].
Qed.

Lemma current_base_url_in (m : Manager) (cur : string) :
  mirrors m <> [] -> current_base_url m = Some cur -> In cur (map base_url (mirrors m)).
Proof.
  unfold current_base_url, current_mirror. destruct (mirrors m) as [|c r]; [contradiction|].
  intros _ H. destruct (py_index (c :: r) (current_index m)) as [x|] eqn:Hx; [|discriminate].
  injection H as <-. apply in_map. exact (py_index_in _ _ _ Hx).
Qed.

Lemma nodup_snoc (tried : list string) (cur : string) :
  NoDup tried -> existsb (String.eqb cur) tried = false -> NoDup (app tried [cur]).
Proof.
  intros Hd He. apply (Permutation_NoDup (Permutation_cons_append tried cur)).
  constructor; [|exact Hd]. intros Hin.
  assert (Hx : existsb (String.eqb cur) tried = true)
    by (apply existsb_exists; exists cur; split; [exact Hin | apply String.eqb_refl]).
  congruence.
Qed.

Lemma fb_loop_tried (f : nat) :
  forall tried last m n m' n' t r,
  fb_loop work f tried last m n = (m', n', t, r) ->
  NoDup tried -> (mirrors m <> [] -> incl tried (map base_url (mirrors m))) ->
  NoDup t /\ (mirrors m <> [] -> incl t (map base_url (mirrors m))).
Proof.
  induction f as [|f IH]; intros tried last m n m' n' t r H Hd Hi.
  - cbn in H. injection H as _ _ <- _. now split.
  - cbn [fb_loop] in H. destruct (current_base_url m) as [cur|] eqn:Hc.
    2: { injection H as _ _ <- _. now split. }
    destruct (existsb (String.eqb cur) tried) eqn:He.
    { unfold exhausted in H. injection H as _ _ <- _. now split. }
    assert (Hd' : NoDup (app tried [cur])) by exact (nodup_snoc _ _ Hd He).
    assert (Hi' : mirrors m <> [] -> incl (app tried [cur]) (map base_url (mirrors m))).
    { intros Hne. apply incl_app; [exact (Hi Hne)|].
      intros x [<- | []]. exact (current_base_url_in _ _ Hne Hc). }
    destruct (work cur n) as [n1 [a|e1|]].
    + injection H as _ _ <- _. now split.
    + destruct (next_mirror m) as [m1 [x|]] eqn:Hn;
        pose proof (FallbackClaims.next_mirror_mirrors _ _ _ Hn) as Hm.
      * rewrite <- Hm in Hi' |- *. exact (IH _ _ _ _ _ _ _ _ H Hd' Hi').
      * unfold exhausted in H. injection H as _ _ <- _. now split.
    + injection H as _ _ <- _. now split.
Qed.

End Loop.

(** X11: the loop shared by [_request_with_fallback], [_search_with_fallback]
    and [_get_series_info_graphql] never reaches its final
    [raise RequestException("All mirrors failed ...")]: the first pass
    always tries a mirror, and every later exit has a recorded error. *)
Theorem fb_run_never_all_failed {Net A : Type} (work : string -> Net -> Net * outcome A)
    (m : Manager) (n : Net) :
  snd (fb_run work m n) <> FbAllFailed.
Proof.
  unfold fb_run. destruct (current_base_url m) as [cur|] eqn:Hc; [|discriminate].
  cbn [fb_loop]. rewrite Hc. cbn [existsb].
  destruct (work cur n) as [n1 [a|e1|]]; try discriminate.
  destruct (next_mirror m) as [m1 [x|]]; [apply fb_loop_some_last | discriminate].
Qed.

(** X12: when the loop raises (every mirror it tried failed), the store
    keeps its mirrors and is back at index 0, from [reset_to_primary]. *)
Theorem fb_run_raise_resets {Net A : Type} (work : string -> Net -> Net * outcome A)
    (m m' : Manager) (n n' : Net) (t : list string) (e : string) :
  fb_run work m n = (m', n', t, FbRaise e) ->
  mirrors m' = mirrors m /\ current_index m' = 0%Z.
Proof.
  unfold fb_run. destruct (current_base_url m); [|discriminate].
  apply fb_loop_raise.
Qed.

(** The witness: every mirror of the default store down, starting at
    [bato.si]. *)
Lemma fb_run_raise_resets_witness :
  fb_run failing_log {| mirrors := DEFAULT_MIRRORS; current_index := 1 |} [] =
    ({| mirrors := DEFAULT_MIRRORS; current_index := 0 |}, ["https://bato.si"; "https://bato.ing"],
     ["https://bato.si"; "https://bato.ing"], FbRaise "Mirror down: https://bato.ing") /\
  mirrors {| mirrors := DEFAULT_MIRRORS; current_index := 0 |} = DEFAULT_MIRRORS /\
  current_index {| mirrors := DEFAULT_MIRRORS; current_index := 0 |} = 0%Z.
Proof.
  assert (H : fb_run failing_log {| mirrors := DEFAULT_MIRRORS; current_index := 1 |} [] =
    ({| mirrors := DEFAULT_MIRRORS; current_index := 0 |}, ["https://bato.si"; "https://bato.ing"],
     ["https://bato.si"; "https://bato.ing"], FbRaise "Mirror down: https://bato.ing"))
    by (vm_compute; reflexivity).
  split; [exact H|]. exact (fb_run_raise_resets _ _ _ _ _ _ _ H).
Defined.

(** X13: one call of the loop requests each mirror at most once, and only
    mirrors of the store (when it has any). *)
Theorem fb_run_tried_distinct {Net A : Type} (work : string -> Net -> Net * outcome A)
    (m m' : Manager) (n n' : Net) (t : list string) (r : fb_result A) :
  fb_run work m n = (m', n', t, r) ->
  NoDup t /\ (mirrors m <> [] -> incl t (map base_url (mirrors m))).
Proof.
  unfold fb_run. destruct (current_base_url m).
  - intros H. apply (fb_loop_tried _ _ _ _ _ _ _ _ _ _ H); [constructor | intros _ x []].
  - intros H. injection H as _ _ <- _. split; [constructor | intros _ x []].
Qed.

(** The witness: the failing run of [fb_run_raise_resets_witness]. *)
Lemma fb_run_tried_distinct_witness :
  NoDup ["https://bato.si"; "https://bato.ing"] /\
  incl ["https://bato.si"; "https://bato.ing"] (map base_url DEFAULT_MIRRORS).
Proof.
  assert (H : fb_run failing_log {| mirrors := DEFAULT_MIRRORS; current_index := 1 |} [] =
    ({| mirrors := DEFAULT_MIRRORS; current_index := 0 |}, ["https://bato.si"; "https://bato.ing"],
     ["https://bato.si"; "https://bato.ing"], FbRaise "Mirror down: https://bato.ing"))
    by (vm_compute; reflexivity).
  destruct (fb_run_tried_distinct _ _ _ _ _ _ _ H) as [H1 H2].
  split; [exact H1 | apply H2; discriminate].
Defined.

Section Search.
Context {Net : Type}.
Variable post : string -> query -> Net -> Net * response.
Variable urljoin : string -> string -> string.

Definition hits_ok (results : list SearchHit) (seen : list string) : Prop :=
  NoDup (map hit_url results) /\ incl (map hit_url results) seen.

Lemma add_items_hits (base : string) (items : list pyval) :
  forall results seen results' seen',
  add_items urljoin base items results seen = Some (results', seen') ->
  hits_ok results seen -> hits_ok results' seen'.
Proof.
  induction items as [|item rest IH]; intros results seen results' seen' H Hok.
  - cbn in H. injection H as <- <-. exact Hok.
  - cbn [add_items] in H.
    destruct (get item "data" (PDict [])) as [data|]; [|discriminate].
    destruct (get data "urlPath" (PStr "")) as [up|]; [|discriminate].
    destruct (negb (truthy up)); [exact (IH _ _ _ _ H Hok)|].
    destruct up as [| | |p| |]; try discriminate.
    destruct (existsb (String.eqb (urljoin base p)) seen) eqn:He; [exact (IH _ _ _ _ H Hok)|].
    destruct (get data "name" (PStr "Unknown")) as [ti|]; [|discriminate].
    destruct (get data "slug" (PStr "")) as [sl|]; [|discriminate].
    apply (IH _ _ _ _ H). destruct Hok as [Hd Hi]. unfold hits_ok. rewrite map_app. cbn [map hit_url].
    split.
    + apply (Permutation_NoDup (Permutation_cons_append _ _)). constructor; [|exact Hd].
      intros Hin. specialize (Hi _ Hin).
      assert (Hx : existsb (String.eqb (urljoin base p)) seen = true)
        by (apply existsb_exists; exists (urljoin base p); split; [exact Hi | apply String.eqb_refl]).
      congruence.
    + apply incl_app; [intros x Hx; right; exact (Hi x Hx) | intros x [<- | []]; now left].
Qed.

Lemma search_pages_hits (word : string) (pages : list Z) :
  forall results seen m n m' n' ps hits,
  search_pages post urljoin word pages results seen m n = (m', n', ps, SearchOk hits) ->
  hits_ok results seen -> NoDup (map hit_url hits).
Proof.
  induction pages as [|page pages IH]; intros results seen m n m' n' ps hits H Hok.
  - cbn in H. injection H as _ _ _ <-. exact (proj1 Hok).
  - cbn [search_pages] in H.
    destruct (search_with_fallback post urljoin word page m n) as [[[m1 n1] t1] r].
    destruct r as [items base|e| |]; try discriminate.
    destruct (negb (truthy items)); [injection H as _ _ _ <-; exact (proj1 Hok)|].
    destruct (py_iter items) as [l|]; [|discriminate].
    destruct (add_items urljoin base l results seen) as [[results' seen']|] eqn:Ha; [|discriminate].
    destruct (search_pages post urljoin word pages results' seen' m1 n1) as [[[m2 n2] ps'] r'] eqn:Hs.
    injection H as <- <- <- ->.
    exact (IH _ _ _ _ _ _ _ _ Hs (add_items_hits _ _ _ _ _ _ Ha Hok)).
Qed.

Lemma search_pages_prefix (word : string) (pages : list Z) :
  forall results seen m n m' n' ps r,
  search_pages post urljoin word pages results seen m n = (m', n', ps, r) ->
  (exists rest, pages = app ps rest) /\ (pages <> [] -> ps <> []).
Proof.
  induction pages as [|page pages IH]; intros results seen m n m' n' ps r H.
  - cbn in H. injection H as _ _ <- _. split; [now exists [] | intros []; reflexivity].
  - cbn [search_pages] in H.
    destruct (search_with_fallback post urljoin word page m n) as [[[m1 n1] t1] r1].
    assert (Hone : ps = [page] -> (exists rest, page :: pages = app ps rest) /\
                                  (page :: pages <> [] -> ps <> [])).
    { intros ->. split; [now exists pages | discriminate]. }
    destruct r1 as [items base|e| |];
      try (injection H as _ _ <- _; now apply Hone).
    destruct (negb (truthy items)); [injection H as _ _ <- _; now apply Hone|].
    destruct (py_iter items) as [l|]; [|injection H as _ _ <- _; now apply Hone].
    destruct (add_items urljoin base l results seen) as [[results' seen']|];
      [|injection H as _ _ <- _; now apply Hone].
    destruct (search_pages post urljoin word pages results' seen' m1 n1) as [[[m2 n2] ps'] r'] eqn:Hs.
    injection H as _ _ <- _. destruct (IH _ _ _ _ _ _ _ _ Hs) as [[rest Hr] _].
    split; [exists rest; cbn [app]; now rewrite Hr | discriminate].
Qed.

Lemma page_range_nonempty (max_pages : Z) : page_range max_pages <> [].
Proof.
  unfold page_range. destruct (Z.to_nat (Z.max 1 max_pages)) eqn:H; [lia | discriminate].
Qed.

End Search.

(** X14: [search_manga] never returns the same series URL twice, across
    pages as within one page ([seen_urls]). *)
Theorem search_manga_distinct_urls {Net : Type} (post : string -> query -> Net -> Net * response)
    (urljoin : string -> string -> string) (q : string) (max_pages : Z)
    (m m' : Manager) (n n' : Net) (ps : list Z) (hits : list SearchHit) :
  search_manga post urljoin q max_pages m n = (m', n', ps, SearchOk hits) ->
  NoDup (map hit_url hits).
Proof.
  unfold search_manga. destruct (String.eqb (Str.strip q) "").
  - intros H. injection H as _ _ _ <-. constructor.
  - intros H. apply (search_pages_hits _ _ _ _ _ _ _ _ _ _ _ _ H). split; [constructor | intros x []].
Qed.

(** The witness: pages 1 and 2 list the series [/title/1-a] three times in
    all; it is returned once. *)
Lemma search_manga_distinct_urls_witness :
  search_manga repeat_post urljoin_origin "x" 3 {| mirrors := DEFAULT_MIRRORS; current_index := 0 |} [] =
    ({| mirrors := DEFAULT_MIRRORS; current_index := 0 |},
     snd (fst (fst (search_manga repeat_post urljoin_origin "x" 3
                     {| mirrors := DEFAULT_MIRRORS; current_index := 0 |} []))),
     [1; 2; 3]%Z,
     SearchOk [{| hit_title := PStr "A"; hit_url := "https://bato.to/title/1-a"; hit_subtitle := PStr "" |};
               {| hit_title := PStr "B"; hit_url := "https://bato.to/title/2-b"; hit_subtitle := PStr "" |}]) /\
  NoDup ["https://bato.to/title/1-a"; "https://bato.to/title/2-b"].
Proof.
  match goal with |- ?e = ?v /\ _ => assert (H : e = v) by (vm_compute; reflexivity) end.
  split; [exact H|]. exact (search_manga_distinct_urls _ _ _ _ _ _ _ _ _ _ H).
Defined.

(** X15: a blank query returns [[]] with no request; any other query
    requests page 1 first and then pages in order, never beyond
    [max(1, max_pages)]. *)
Theorem search_manga_pages {Net : Type} (post : string -> query -> Net -> Net * response)
    (urljoin : string -> string -> string) (q : string) (max_pages : Z)
    (m m' : Manager) (n n' : Net) (ps : list Z) (r : search_result) :
  search_manga post urljoin q max_pages m n = (m', n', ps, r) ->
  (Str.strip q = "" -> m' = m /\ n' = n /\ ps = [] /\ r = SearchOk []) /\
  (Str.strip q <> "" -> hd_error ps = Some 1%Z /\ exists rest, page_range max_pages = app ps rest).
Proof.
  unfold search_manga. destruct (String.eqb (Str.strip q) "") eqn:Hq.
  - intros H. injection H as <- <- <- <-. apply String.eqb_eq in Hq.
    split; [now intros _ | intros Hn; contradiction].
  - intros H. apply String.eqb_neq in Hq. split; [intros He; contradiction|]. intros _.
    destruct (search_pages_prefix _ _ _ _ _ _ _ _ _ _ _ _ H) as [[rest Hr] Hne].
    split; [|now exists rest].
    specialize (Hne (page_range_nonempty max_pages)).
    destruct ps as [|p ps]; [contradiction|]. cbn [hd_error].
    unfold page_range in Hr. destruct (Z.to_nat (Z.max 1 max_pages)) eqn:Hm; [lia|].
    cbn [seq map app] in Hr. injection Hr as <- _. reflexivity.
Qed.

(** The witness: the run of [search_manga_distinct_urls_witness], which
    stops at the empty page 3 of [max_pages = 5]. *)
Lemma search_manga_pages_witness :
  let r := search_manga repeat_post urljoin_origin " x " 5 {| mirrors := DEFAULT_MIRRORS; current_index := 0 |} [] in
  snd (fst r) = [1; 2; 3]%Z /\ Str.strip " x " <> "" /\
  hd_error [1; 2; 3]%Z = Some 1%Z /\ exists rest, page_range 5 = app [1; 2; 3]%Z rest.
Proof.
  cbv zeta.
  match goal with |- snd (fst ?e) = _ /\ _ =>
    destruct e as [[[m' n'] ps] r] eqn:H end.
  assert (Hp : ps = [1; 2; 3]%Z).
  { match type of H with ?e = _ =>
      assert (H' : snd (fst e) = [1; 2; 3]%Z) by (vm_compute; reflexivity) end.
    rewrite H in H'. exact H'. }
  subst ps. split; [reflexivity|]. split; [vm_compute; discriminate|].
  exact (proj2 (search_manga_pages _ _ _ _ _ _ _ _ _ _ H) ltac:(vm_compute; discriminate)).
Defined.


Lemma digits_prefix_digits (s : string) :
  forallb Url.is_digit (list_ascii_of_string (digits_prefix s)) = true.
Proof.
  induction s as [|c s IH]; [reflexivity|]. cbn [digits_prefix].
  destruct (Url.is_digit c) eqn:Hc; [|reflexivity]. cbn. now rewrite Hc, IH.
Qed.

Lemma digits_prefix_prefix (s : string) : String.prefix (digits_prefix s) s = true.
Proof.
  induction s as [|c s IH]; [reflexivity|]. cbn [digits_prefix].
  destruct (Url.is_digit c); cbn; [|reflexivity].
  destruct (Ascii.ascii_dec c c); [exact IH | contradiction].
Qed.

Lemma prefix_substring0 (u t : string) (L : nat) :
  String.prefix u (substring 0 L t) = true -> String.prefix u t = true.
Proof.
  revert t L. induction u as [|c u IH]; intros t L; [now destruct t|].
  destruct t as [|d t]; destruct L as [|L]; cbn; try discriminate.
  destruct (Ascii.ascii_dec c d); [apply IH | discriminate].
Qed.

Lemma prefix_app_substring (p t : string) :
  String.prefix p t = true ->
  forall u L, String.prefix u (substring (String.length p) L t) = true ->
  String.prefix (p ++ u) t = true.
Proof.
  revert t. induction p as [|c p IH]; intros t Hp u L Hu.
  - exact (prefix_substring0 _ _ _ Hu).
  - destruct t as [|d t]; [discriminate|]. cbn in Hp |- *.
    destruct (Ascii.ascii_dec c d); [|discriminate]. exact (IH t Hp u L Hu).
Qed.

(** X16: the comic ID that [get_series_info] extracts ([/title/(\d+)]) is a
    non-empty string of digits, and ["/title/"] followed by it occurs in
    the path. *)
Theorem find_title_id_digits (s id : string) :
  find_title_id s = Some id ->
  id <> "" /\ forallb Url.is_digit (list_ascii_of_string id) = true /\
  contains s ("/title/" ++ id) = true.
Proof.
  revert id. induction s as [|c s IH]; intros id.
  - cbn. discriminate.
  - cbn [find_title_id].
    destruct (String.prefix "/title/" (String c s)) eqn:Hp.
    + destruct (String.eqb (digits_prefix (substring 7 (String.length (String c s)) (String c s))) "") eqn:He.
      * cbn [negb]. intros H. destruct (IH id H) as (H1 & H2 & H3).
        split; [exact H1|]. split; [exact H2|]. cbn [contains]. now rewrite H3, orb_true_r.
      * cbn [negb]. intros H. injection H as <-.
        split; [now apply String.eqb_neq|]. split; [apply digits_prefix_digits|].
        cbn [contains]. apply orb_true_intro. left.
        apply (prefix_app_substring "/title/" (String c s) Hp _ (String.length (String c s))). apply digits_prefix_prefix.
    + cbn [negb String.eqb]. intros H. destruct (IH id H) as (H1 & H2 & H3).
      split; [exact H1|]. split; [exact H2|]. cbn [contains]. now rewrite H3, orb_true_r.
Qed.

(** The witness: the series URL of the service tests. *)
Lemma find_title_id_digits_witness :
  find_title_id "/title/12345-sample-series" = Some "12345" /\
  "12345" <> "" /\ forallb Url.is_digit (list_ascii_of_string "12345") = true /\
  contains "/title/12345-sample-series" ("/title/" ++ "12345") = true.
Proof.
  split; [reflexivity|]. apply find_title_id_digits. reflexivity.
Defined.

(** X17: when [get_series_info] rejects a URL with no [/title/<digits>] in
    its path ([ValueError]), it has sent no request and left the mirror
    store as it was. *)
Theorem get_series_info_invalid_no_request {Net : Type}
    (post : string -> query -> Net -> Net * response) (urljoin : string -> string -> string)
    (url : string) (m m' : Manager) (n n' : Net) :
  get_series_info post urljoin url m n = (m', n', SeriesInvalid) -> m' = m /\ n' = n.
Proof.
  unfold get_series_info. destruct (Url.urlparse url) as [[parsed ps]|]; [|discriminate].
  destruct (find_title_id (Url.path parsed)) as [cid|].
  2: { intros H. injection H as <- <-. now split. }
  destruct (get_series_info_graphql post urljoin cid m n) as [[[m1 n1] t] r].
  destruct r as [[cd chd] base|e| |]; try discriminate.
  destruct (series_info_of urljoin base (Url.path parsed) cd chd); discriminate.
Qed.

(** The witness: a chapter URL with no [/title/] segment. *)
Lemma get_series_info_invalid_no_request_witness :
  get_series_info fake_post urljoin_origin "https://bato.to/chapter/77"
    {| mirrors := DEFAULT_MIRRORS; current_index := 1 |} [] =
  ({| mirrors := DEFAULT_MIRRORS; current_index := 1 |}, [], SeriesInvalid) /\
  {| mirrors := DEFAULT_MIRRORS; current_index := 1 |} = {| mirrors := DEFAULT_MIRRORS; current_index := 1 |} /\
  @nil (string * query) = [].
Proof.
  assert (H : get_series_info fake_post urljoin_origin "https://bato.to/chapter/77"
                {| mirrors := DEFAULT_MIRRORS; current_index := 1 |} [] =
              ({| mirrors := DEFAULT_MIRRORS; current_index := 1 |}, [], SeriesInvalid))
    by (vm_compute; reflexivity).
  split; [exact H|]. exact (get_series_info_invalid_no_request _ _ _ _ _ _ _ H).
Defined.

(** X18: [_apply_rate_limit] sleeps only for a positive time, and when a
    request was made before ([_last_request_time > 0]) the new
    [_last_request_time] is at least [_rate_limit_delay] after the old one,
    provided the clock has advanced by the sleep. *)
Theorem rate_limit_spacing (last delay t1 t2 : Q) :
  (forall s, rate_limit_sleep last delay t1 = Some s -> 0 < s)%Q /\
  ((0 < last)%Q ->
   (t1 + match rate_limit_sleep last delay t1 with Some s => s | None => 0 end <= t2)%Q ->
   (last + delay <= t2)%Q).
Proof.
  unfold rate_limit_sleep. split.
  - intros s. destruct (Qle_bool last 0) eqn:Hl; cbn [negb]; [discriminate|].
    destruct (Qle_bool delay (t1 - last)) eqn:Hd; cbn [negb]; [discriminate|].
    intros H. injection H as <-.
    assert (Hn : ~ (delay <= t1 - last)%Q) by (intros Hx; apply Qle_bool_iff in Hx; congruence).
    apply Qnot_le_lt in Hn. lra.
  - intros Hpos Ht2. assert (Hl : Qle_bool last 0 = false).
    { destruct (Qle_bool last 0) eqn:Hx; [|reflexivity]. apply Qle_bool_iff in Hx. lra. }
    rewrite Hl in Ht2. cbn [negb] in Ht2.
    destruct (Qle_bool delay (t1 - last)) eqn:Hd; cbn [negb] in Ht2.
    + apply Qle_bool_iff in Hd. lra.
    + lra.
Qed.

(** The witness: the previous request a quarter second ago, a delay of one
    second: the sleep is three quarters of a second. *)
Lemma rate_limit_spacing_witness :
  rate_limit_sleep 10 1 (41 # 4)%Q = Some (3 # 4)%Q /\ (10 + 1 <= 11)%Q.
Proof.
  split; [vm_compute; reflexivity|].
  apply (proj2 (rate_limit_spacing 10 1 (41 # 4)%Q 11)); vm_compute; first [reflexivity | intros Hx; discriminate Hx].
Defined.

End ServiceExtras.

Module RemoveExtras.
Import Mirror Props.

Lemma nth_error_pop_at {A} (k j : nat) (l : list A) :
  (k < List.length l)%nat ->
  nth_error (pop_at k l) j = nth_error l (if Nat.ltb j k then j else S j).
Proof.
  intros Hk. unfold pop_at.
  assert (Hf : List.length (firstn k l) = k) by (apply firstn_length_le; lia).
  destruct (Nat.ltb j k) eqn:Hj.
  - apply Nat.ltb_lt in Hj. rewrite nth_error_app1 by lia.
    rewrite nth_error_firstn. apply Nat.ltb_lt in Hj. now rewrite Hj.
  - apply Nat.ltb_ge in Hj. rewrite nth_error_app2 by lia. rewrite nth_error_skipn, Hf.
    f_equal. lia.
Qed.

Lemma current_mirror_in_range (m : Manager) :
  (0 <= current_index m < Z.of_nat (List.length (mirrors m)))%Z ->
  current_mirror m = nth_error (mirrors m) (Z.to_nat (current_index m)).
Proof.
  intros Hi. unfold current_mirror, py_index.
  destruct (mirrors m) as [|c r]; [cbn in Hi; lia|].
  replace ((0 <=? current_index m)%Z && (current_index m <? Z.of_nat (List.length (c :: r)))%Z)
    with true; [reflexivity|].
  symmetry. apply andb_true_intro. split; [apply Z.leb_le | apply Z.ltb_lt]; lia.
Qed.

(** X19: removing a mirror other than the current one succeeds and keeps the
    current mirror current: the index is moved down when a mirror before it
    goes, and kept otherwise. *)
Theorem remove_mirror_keeps_current (m : Manager) (index : Z) :
  (0 <= current_index m < Z.of_nat (List.length (mirrors m)))%Z ->
  (0 <= index < Z.of_nat (List.length (mirrors m)))%Z ->
  index <> current_index m ->
  fst (snd (remove_mirror m index)) = true /\
  current_mirror (fst (remove_mirror m index)) = current_mirror m /\
  current_index (fst (remove_mirror m index)) =
    (if (index <? current_index m)%Z then current_index m - 1 else current_index m)%Z.
Proof.
  intros Hi Hx Hne. destruct m as [l i]. cbn [mirrors current_index] in *.
  unfold remove_mirror. cbn [mirrors current_index].
  replace (negb ((0 <=? index)%Z && (index <? Z.of_nat (List.length l))%Z)) with false
    by (symmetry; apply negb_false_iff, andb_true_intro; split; [apply Z.leb_le | apply Z.ltb_lt]; lia).
  replace (Z.of_nat (List.length l) <=? 1)%Z with false by (symmetry; apply Z.leb_gt; lia).
  assert (Hlen : List.length (pop_at (Z.to_nat index) l) = pred (List.length l))
    by (apply StoreClaims.length_pop_at; lia).
  rewrite Hlen. split; [reflexivity|].
  set (i' := if (Z.of_nat (pred (List.length l)) <=? i)%Z then (Z.of_nat (pred (List.length l)) - 1)%Z
             else if (index <? i)%Z then (i - 1)%Z else i).
  assert (Hi' : i' = (if (index <? i)%Z then i - 1 else i)%Z).
  { unfold i'. destruct (Z.of_nat (pred (List.length l)) <=? i)%Z eqn:H1; [|reflexivity].
    apply Z.leb_le in H1. replace (index <? i)%Z with true by (symmetry; apply Z.ltb_lt; lia). lia. }
  split; [|cbn [fst current_index]; exact Hi'].
  rewrite (current_mirror_in_range {| mirrors := l; current_index := i |}) by exact Hi.
  rewrite current_mirror_in_range; cbn [mirrors current_index]; rewrite Hi', ?Hlen.
  - cbn [fst mirrors current_index]. rewrite nth_error_pop_at by lia. f_equal.
    destruct (index <? i)%Z eqn:H2; [apply Z.ltb_lt in H2 | apply Z.ltb_ge in H2].
    + replace (Nat.ltb (Z.to_nat (i - 1)) (Z.to_nat index)) with false
        by (symmetry; apply Nat.ltb_ge; lia). lia.
    + replace (Nat.ltb (Z.to_nat i) (Z.to_nat index)) with true
        by (symmetry; apply Nat.ltb_lt; lia). reflexivity.
  - cbn [fst mirrors current_index]. rewrite Hlen. destruct (index <? i)%Z eqn:H2; [apply Z.ltb_lt in H2 | apply Z.ltb_ge in H2]; lia.
Qed.

(** The witness: removing [bato.to] while [bato.ing] is current. *)
Lemma remove_mirror_keeps_current_witness :
  fst (snd (remove_mirror {| mirrors := DEFAULT_MIRRORS; current_index := 2 |} 0)) = true /\
  current_mirror (fst (remove_mirror {| mirrors := DEFAULT_MIRRORS; current_index := 2 |} 0)) =
    Some (mk_default "https://bato.ing") /\
  current_index (fst (remove_mirror {| mirrors := DEFAULT_MIRRORS; current_index := 2 |} 0)) = 1%Z.
Proof.
  destruct (remove_mirror_keeps_current {| mirrors := DEFAULT_MIRRORS; current_index := 2 |} 0
              ltac:(cbn; lia) ltac:(cbn; lia) ltac:(discriminate)) as [H1 [H2 H3]].
  split; [exact H1|]. split; [rewrite H2; reflexivity | rewrite H3; reflexivity].
Defined.

End RemoveExtras.
